(** * GitSync status tracking (api/v1alpha1/gitsync_types.go)

    A shallow embedding of the status model of the GitSync resource: the
    phase setter, the condition upsert [setCondition] and the operations
    built on it, followed by the properties of the condition list
    (no-op detection, uniqueness, ordering, timestamps, frames). *)

From Stdlib Require Import List String Ascii ZArith NArith Bool Lia.
From Stdlib Require Import Permutation Sorted.
Import ListNotations.
Open Scope string_scope.
Open Scope list_scope.

(** ** k8s.io/apimachinery/pkg/apis/meta/v1

    The package imported as [metav1] at line 24 of the source.  Only the
    declarations the source uses are given. *)
Module metav1.

(** [metav1.Time] wraps [time.Time]; the code copies such values, compares
    them inside [reflect.DeepEqual] and makes new ones from [time.Now()].
    An instant is represented by an integer. *)
Definition Time := Z.

Definition NewTime (t : Z) : Time := t.

(** [type ConditionStatus string] with its three constants. *)
Definition ConditionStatus := string.
Definition ConditionTrue : ConditionStatus := "True".
Definition ConditionFalse : ConditionStatus := "False".
Definition ConditionUnknown : ConditionStatus := "Unknown".

(** [metav1.Condition]: the six fields of the struct, in declaration
    order.  [Type_] stands for the field [Type]. *)
Record Condition := mkCondition {
  Type_ : string;
  Status : ConditionStatus;
  ObservedGeneration : Z;
  LastTransitionTime : Time;
  Reason : string;
  Message : string
}.

(** [metav1.ObjectMeta], embedded in [GitSync]: of its fields the source
    reads [Name] and [Namespace] only, the others are left out. *)
Record ObjectMeta := mkObjectMeta {
  Name : string;
  Namespace : string
}.

End metav1.

(** ** Types of the package *)

Definition GitSyncPhase := string.
Definition ConditionType := string.

Definition GitSyncPhasePending : GitSyncPhase := "Pending".
Definition GitSyncPhaseRunning : GitSyncPhase := "Running".
Definition GitSyncPhaseFailed : GitSyncPhase := "Failed".
Definition GitSyncPhaseNA : GitSyncPhase := "NotApplicable".

Definition GitSyncConditionConfigured : ConditionType := "Configured".

Record CommitStatus := mkCommitStatus {
  Hash : string;
  Synced : bool;
  SyncTime : metav1.Time;
  Error : string
}.

(** [CommitStatus] is a pointer field: [None] is the nil pointer. *)
Record GitSyncStatus := mkGitSyncStatus {
  Phase : GitSyncPhase;
  Conditions : list metav1.Condition;
  Message : string;
  CommitStatus_ : option CommitStatus
}.

(** ** The ambient clock

    [time.Now()] is the only effect besides the writes to the receiver.  A
    world holds the receiver [*status] together with the clock: [wall i] is
    the value returned by the [i]-th reading of [time.Now()] and [ticks]
    counts the readings made so far. *)
Record World := mkWorld {
  wall : nat -> Z;
  ticks : nat;
  status : GitSyncStatus
}.

Definition time_Now (w : World) : Z * World :=
  (wall w (ticks w), mkWorld (wall w) (S (ticks w)) (status w)).

Definition monotone (clock : nat -> Z) : Prop :=
  forall i j, (i <= j)%nat -> (clock i <= clock j)%Z.

(** The zero value of [GitSyncStatus]. *)
Definition fresh : GitSyncStatus := mkGitSyncStatus "" [] "" None.

(** Field assignments on the receiver. *)
Definition set_Conditions (cs : list metav1.Condition) (w : World) : World :=
  mkWorld (wall w) (ticks w)
    (mkGitSyncStatus (Phase (status w)) cs (Message (status w))
                     (CommitStatus_ (status w))).

Definition set_LastTransitionTime (t : metav1.Time) (c : metav1.Condition)
  : metav1.Condition :=
  metav1.mkCondition (metav1.Type_ c) (metav1.Status c)
    (metav1.ObservedGeneration c) t (metav1.Reason c) (metav1.Message c).

(** ** reflect.DeepEqual on two [*metav1.Condition]

    Both pointers are non-nil, so the pointed structs are compared field by
    field. *)
Definition DeepEqual (a b : metav1.Condition) : bool :=
  String.eqb (metav1.Type_ a) (metav1.Type_ b)
  && String.eqb (metav1.Status a) (metav1.Status b)
  && Z.eqb (metav1.ObservedGeneration a) (metav1.ObservedGeneration b)
  && Z.eqb (metav1.LastTransitionTime a) (metav1.LastTransitionTime b)
  && String.eqb (metav1.Reason a) (metav1.Reason b)
  && String.eqb (metav1.Message a) (metav1.Message b).

(** ** sort.Slice

    The insertion sort that [sort.Slice] runs on slices of at most twelve
    elements: each element in turn is moved left while it is [less] than its
    left neighbour.  On longer slices the library switches to pdqsort, which
    also yields a sorted permutation; the general results below only use
    that much of the sort. *)
Section SortSlice.
Context {A : Type} (less : A -> A -> bool).

(** [sift x rev_prefix]: [rev_prefix] is the already sorted prefix, last
    element first; [x] moves left past every neighbour it is less than. *)
Fixpoint sift (x : A) (rev_prefix : list A) : list A :=
  match rev_prefix with
  | [] => [x]
  | y :: rest => if less x y then y :: sift x rest else x :: y :: rest
  end.

Definition sort_Slice (data : list A) : list A :=
  rev (fold_left (fun rev_prefix x => sift x rev_prefix) data []).
End SortSlice.

(** The comparison passed to [sort.Slice] at line 191. *)
Definition less_Type (a b : metav1.Condition) : bool :=
  String.ltb (metav1.Type_ a) (metav1.Type_ b).

(** ** Methods of [*GitSyncStatus] *)

Definition SetPhase (phase : GitSyncPhase) (msg : string) (w : World) : World :=
  mkWorld (wall w) (ticks w)
    (mkGitSyncStatus phase (Conditions (status w)) msg
                     (CommitStatus_ (status w))).

(** The loop of [setCondition] (lines 178-187).  [condition] is the local
    copy of the argument, whose timestamp the loop overwrites;
    [conditions] is the slice being built.  [None] is the early [return]
    of line 184. *)
Fixpoint setCondition_loop (range : list metav1.Condition)
    (condition : metav1.Condition) (conditions : list metav1.Condition)
  : option (metav1.Condition * list metav1.Condition) :=
  match range with
  | [] => Some (condition, conditions)
  | c :: rest =>
      if negb (String.eqb (metav1.Type_ c) (metav1.Type_ condition)) then
        setCondition_loop rest condition (conditions ++ [c])
      else
        let condition :=
          set_LastTransitionTime (metav1.LastTransitionTime c) condition in
        if DeepEqual condition c then None
        else setCondition_loop rest condition conditions
  end.

Definition setCondition (condition : metav1.Condition) (w : World) : World :=
  match setCondition_loop (Conditions (status w)) condition [] with
  | None => w
  | Some (condition, conditions) =>
      let (now, w) := time_Now w in
      let condition := set_LastTransitionTime (metav1.NewTime now) condition in
      let conditions := conditions ++ [condition] in
      let conditions := sort_Slice less_Type conditions in
      set_Conditions conditions w
  end.

(** A composite literal leaves the fields it does not name at their zero
    value. *)
Definition InitializeConditions (conditionTypes : list ConditionType)
    (w : World) : World :=
  fold_left
    (fun w t =>
       setCondition
         (metav1.mkCondition t metav1.ConditionUnknown 0%Z 0%Z "Unknown" "") w)
    conditionTypes w.

Definition InitConditions (w : World) : World :=
  SetPhase GitSyncPhasePending ""
    (InitializeConditions [GitSyncConditionConfigured] w).

Definition markTypeStatus (t : ConditionType) (s : metav1.ConditionStatus)
    (reason message : string) (w : World) : World :=
  setCondition (metav1.mkCondition t s 0%Z 0%Z reason message) w.

Definition MarkConditionTrue (t : ConditionType) (w : World) : World :=
  markTypeStatus t metav1.ConditionTrue "Successful" "Successful" w.

Definition MarkConditionFalse (t : ConditionType) (reason message : string)
    (w : World) : World :=
  markTypeStatus t metav1.ConditionFalse reason message w.

Definition MarkConditionUnknown (t : ConditionType) (reason message : string)
    (w : World) : World :=
  markTypeStatus t metav1.ConditionUnknown reason message w.

Definition MarkRunning (w : World) : World :=
  SetPhase GitSyncPhaseRunning "" (MarkConditionTrue GitSyncConditionConfigured w).

Definition MarkFailed (reason message : string) (w : World) : World :=
  SetPhase GitSyncPhaseFailed message
    (MarkConditionFalse GitSyncConditionConfigured reason message w).

Definition MarkNotApplicable (reason message : string) (w : World) : World :=
  SetPhase GitSyncPhaseNA message
    (MarkConditionFalse GitSyncConditionConfigured reason message w).

(** ** Calls

    The methods as data, so that statements can range over "every
    operation" and over sequences of calls. *)
Inductive Call :=
| CallSetPhase (phase : GitSyncPhase) (msg : string)
| CallInitializeConditions (conditionTypes : list ConditionType)
| CallSetCondition (condition : metav1.Condition)
| CallInitConditions
| CallMarkTypeStatus (t : ConditionType) (s : metav1.ConditionStatus)
                     (reason message : string)
| CallMarkConditionTrue (t : ConditionType)
| CallMarkConditionFalse (t : ConditionType) (reason message : string)
| CallMarkConditionUnknown (t : ConditionType) (reason message : string)
| CallMarkRunning
| CallMarkFailed (reason message : string)
| CallMarkNotApplicable (reason message : string).

Definition call (c : Call) (w : World) : World :=
  match c with
  | CallSetPhase phase msg => SetPhase phase msg w
  | CallInitializeConditions ts => InitializeConditions ts w
  | CallSetCondition condition => setCondition condition w
  | CallInitConditions => InitConditions w
  | CallMarkTypeStatus t s reason message => markTypeStatus t s reason message w
  | CallMarkConditionTrue t => MarkConditionTrue t w
  | CallMarkConditionFalse t reason message => MarkConditionFalse t reason message w
  | CallMarkConditionUnknown t reason message =>
      MarkConditionUnknown t reason message w
  | CallMarkRunning => MarkRunning w
  | CallMarkFailed reason message => MarkFailed reason message w
  | CallMarkNotApplicable reason message => MarkNotApplicable reason message w
  end.

(** The calls that go through [setCondition] only. *)
Definition condition_call (c : Call) : bool :=
  match c with
  | CallInitializeConditions _ | CallSetCondition _ | CallMarkTypeStatus _ _ _ _
  | CallMarkConditionTrue _ | CallMarkConditionFalse _ _ _
  | CallMarkConditionUnknown _ _ _ => true
  | _ => false
  end.

Definition run (calls : list Call) (w : World) : World :=
  fold_left (fun w c => call c w) calls w.

(** The worlds reached after each call of a sequence, in order. *)
Fixpoint trace (calls : list Call) (w : World) : list World :=
  match calls with
  | [] => []
  | c :: rest => call c w :: trace rest (call c w)
  end.

(** ** Predicates on condition lists *)

(** Ascending order of [Type], the order of Go's [<] on strings (byte-wise
    lexicographic). *)
Definition Type_le (a b : metav1.Condition) : Prop :=
  String.leb (metav1.Type_ a) (metav1.Type_ b) = true.

Definition sorted_by_Type (cs : list metav1.Condition) : Prop :=
  StronglySorted Type_le cs.

(** At most one condition per [Type]. *)
Definition unique_Types (cs : list metav1.Condition) : Prop :=
  NoDup (map metav1.Type_ cs).

(** The conditions of one [Type], in list order. *)
Definition of_Type (t : string) (cs : list metav1.Condition)
  : list metav1.Condition :=
  filter (fun c => String.eqb (metav1.Type_ c) t) cs.

(** Agreement on every field but [LastTransitionTime]. *)
Definition same_but_time (a b : metav1.Condition) : Prop :=
  metav1.Type_ a = metav1.Type_ b
  /\ metav1.Status a = metav1.Status b
  /\ metav1.ObservedGeneration a = metav1.ObservedGeneration b
  /\ metav1.Reason a = metav1.Reason b
  /\ metav1.Message a = metav1.Message b.

(** The fields the specification displays of a condition: Type, Status,
    Reason, Message. *)
Definition shown (c : metav1.Condition) : string * string * string * string :=
  (metav1.Type_ c, metav1.Status c, metav1.Reason c, metav1.Message c).

(** [same_but_time] as the test the loop performs once the timestamp has
    been carried over. *)
Definition same_but_timeb (a b : metav1.Condition) : bool :=
  String.eqb (metav1.Type_ a) (metav1.Type_ b)
  && String.eqb (metav1.Status a) (metav1.Status b)
  && Z.eqb (metav1.ObservedGeneration a) (metav1.ObservedGeneration b)
  && String.eqb (metav1.Reason a) (metav1.Reason b)
  && String.eqb (metav1.Message a) (metav1.Message b).

(** The conditions the loop keeps: those of another [Type]. *)
Definition others (t : string) (cs : list metav1.Condition)
  : list metav1.Condition :=
  filter (fun c => negb (String.eqb (metav1.Type_ c) t)) cs.

(** The timestamp the loop has carried into [condition] when it runs to
    its end: that of the last condition of the same [Type], if any. *)
Definition carried_time (t : string) (cs : list metav1.Condition)
    (t0 : metav1.Time) : metav1.Time :=
  fold_left
    (fun acc c =>
       if String.eqb (metav1.Type_ c) t then metav1.LastTransitionTime c
       else acc)
    cs t0.

(** Upsert as the specification words it (section 4.2): keep the conditions
    of other Types, drop the update when the incoming condition with the
    carried timestamp equals a stored one, otherwise stamp, append and
    sort.  [setCondition_upsert] shows that the method computes it. *)
Definition upsert (condition : metav1.Condition) (w : World) : World :=
  if existsb (same_but_timeb condition) (Conditions (status w)) then w
  else
    set_Conditions
      (sort_Slice less_Type
         (others (metav1.Type_ condition) (Conditions (status w))
          ++ [set_LastTransitionTime (wall w (ticks w)) condition]))
      (snd (time_Now w)).

(** The literal that [InitializeConditions] passes on for a type. *)
Definition Unknown_condition (t : ConditionType) : metav1.Condition :=
  metav1.mkCondition t metav1.ConditionUnknown 0%Z 0%Z "Unknown" "".

(** ** Sample worlds *)

Definition sample_clock (i : nat) : Z := Z.of_nat (100 + i).

(** A status read back with a generation recorded on its condition. *)
Definition with_generation : World :=
  mkWorld sample_clock 0
    (mkGitSyncStatus GitSyncPhaseRunning
       [metav1.mkCondition "Configured" "True" 1%Z 5%Z "Successful" "Successful"]
       "" None).

(** A status read back with its conditions out of order. *)
Definition out_of_order : World :=
  mkWorld sample_clock 0
    (mkGitSyncStatus ""
       [metav1.mkCondition "B" "Unknown" 0%Z 1%Z "Unknown" "";
        metav1.mkCondition "A" "Unknown" 0%Z 2%Z "Unknown" ""]
       "" None).

(** A status read back with two conditions of one type. *)
Definition with_duplicate : World :=
  mkWorld sample_clock 0
    (mkGitSyncStatus ""
       [metav1.mkCondition "Configured" "True" 0%Z 1%Z "Successful" "Successful";
        metav1.mkCondition "Configured" "False" 0%Z 2%Z "GitError" "clone failed"]
       "" None).

(** The status after [InitConditions] and [MarkRunning] on a fresh one. *)
Definition scenario_B (clock : nat -> Z) (n : nat) : World :=
  MarkRunning (InitConditions (mkWorld clock n fresh)).

(** The list is sorted after every call of a sequence of [setCondition]
    calls started in [w]. *)
Definition sorted_after_each_call (conditions : list metav1.Condition)
    (w : World) : Prop :=
  Forall (fun w' => sorted_by_Type (Conditions (status w')))
         (trace (map CallSetCondition conditions) w).

(** The calls that code outside the methods can cause: [setCondition] is
    unexported and every condition the methods hand to it is a literal
    without ObservedGeneration. *)
Definition from_methods (c : Call) : bool :=
  match c with
  | CallSetCondition condition => Z.eqb (metav1.ObservedGeneration condition) 0
  | _ => true
  end.

(** What the methods maintain on the list. *)
Definition kept (cs : list metav1.Condition) : Prop :=
  Forall (fun c => metav1.ObservedGeneration c = 0%Z) cs
  /\ unique_Types cs
  /\ sorted_by_Type cs.

(** ** The resource and its spec *)

Record RepositoryPath := mkRepositoryPath {
  Name : string;
  RepoUrl : string;
  Path : string;
  TargetRevision : string
}.

Record Destination := mkDestination {
  Cluster : string;
  Namespace : string
}.

Record GitSyncSpec := mkGitSyncSpec {
  RepositoryPath_ : RepositoryPath;
  Destination_ : Destination
}.

(** [GitSync]: the embedded [metav1.ObjectMeta] gives [gitSync.Namespace]
    and [gitSync.Name]; the embedded [metav1.TypeMeta] is not read. *)
Record GitSync := mkGitSync {
  ObjectMeta_ : metav1.ObjectMeta;
  Spec : GitSyncSpec;
  Status_ : GitSyncStatus
}.

Definition GitSync_String (gitSync : GitSync) : string :=
  (metav1.Namespace (ObjectMeta_ gitSync) ++ "/"
   ++ metav1.Name (ObjectMeta_ gitSync))%string.



(** Does the byte occur in the string? *)
Fixpoint has_byte (a : ascii) (s : string) : bool :=
  match s with
  | EmptyString => false
  | String b rest => Ascii.eqb a b || has_byte a rest
  end.

(** The values of the kubebuilder enumeration of line 27. *)
Definition listed_phase (phase : GitSyncPhase) : bool :=
  String.eqb phase "" || String.eqb phase GitSyncPhasePending
  || String.eqb phase GitSyncPhaseRunning || String.eqb phase GitSyncPhaseFailed
  || String.eqb phase GitSyncPhaseNA.

(** The calls that do not hand [SetPhase] a phase from outside. *)
Definition listed_call (c : Call) : bool :=
  match c with
  | CallSetPhase phase _ => listed_phase phase
  | _ => true
  end.

(** Every stored timestamp is one of the clock readings made so far. *)
Definition stamped_by_clock (w : World) : Prop :=
  Forall (fun c => exists i, (i < ticks w)%nat
                             /\ metav1.LastTransitionTime c = wall w i)
         (Conditions (status w)).

(** The conditions whose Type is none of [ts]. *)
Definition not_among (ts : list ConditionType) (c : metav1.Condition) : bool :=
  negb (existsb (String.eqb (metav1.Type_ c)) ts).

(** The list with every timestamp blanked. *)
Definition untimed (cs : list metav1.Condition) : list metav1.Condition :=
  map (set_LastTransitionTime 0%Z) cs.

(** The upsert on lists without timestamps. *)
Definition upsert_untimed (condition : metav1.Condition)
    (cs : list metav1.Condition) : list metav1.Condition :=
  if existsb (same_but_timeb condition) cs then cs
  else sort_Slice less_Type
         (others (metav1.Type_ condition) cs
          ++ [set_LastTransitionTime 0%Z condition]).

(** * Properties *)

(** ** Order of strings *)

Lemma Ascii_compare_Lt_trans (a b c : ascii) :
  Ascii.compare a b = Lt -> Ascii.compare b c = Lt -> Ascii.compare a c = Lt.
Proof.
  unfold Ascii.compare. rewrite !N.compare_lt_iff. lia.
Qed.

Lemma String_compare_refl (s : string) : String.compare s s = Eq.
Proof.
  induction s as [|a s IH]; simpl; [reflexivity|].
  unfold Ascii.compare. now rewrite N.compare_refl.
Qed.

Lemma String_compare_Lt_trans (s1 : string) :
  forall s2 s3, String.compare s1 s2 = Lt -> String.compare s2 s3 = Lt ->
                String.compare s1 s3 = Lt.
Proof.
  induction s1 as [|a s1 IH]; intros [|b s2] [|c s3]; simpl; try congruence.
  destruct (Ascii.compare a b) eqn:Hab; try discriminate;
    destruct (Ascii.compare b c) eqn:Hbc; try discriminate; intros H12 H23.
  - apply Ascii.compare_eq_iff in Hab, Hbc; subst.
    unfold Ascii.compare at 1. rewrite N.compare_refl. eauto.
  - apply Ascii.compare_eq_iff in Hab; subst. now rewrite Hbc.
  - apply Ascii.compare_eq_iff in Hbc; subst. now rewrite Hab.
  - now rewrite (Ascii_compare_Lt_trans a b c).
Qed.

Lemma String_leb_trans (s1 s2 s3 : string) :
  String.leb s1 s2 = true -> String.leb s2 s3 = true -> String.leb s1 s3 = true.
Proof.
  unfold String.leb.
  destruct (String.compare s1 s2) eqn:H12; try discriminate;
    destruct (String.compare s2 s3) eqn:H23; try discriminate; intros _ _.
  - apply String.compare_eq_iff in H12; subst. now rewrite H23.
  - apply String.compare_eq_iff in H12; subst. now rewrite H23.
  - apply String.compare_eq_iff in H23; subst. now rewrite H12.
  - now rewrite (String_compare_Lt_trans s1 s2 s3).
Qed.

Lemma String_ltb_leb (s1 s2 : string) :
  String.ltb s1 s2 = true -> String.leb s1 s2 = true.
Proof.
  unfold String.ltb, String.leb. now destruct (String.compare s1 s2).
Qed.

Lemma String_nltb_leb (s1 s2 : string) :
  String.ltb s1 s2 = false -> String.leb s2 s1 = true.
Proof.
  unfold String.ltb, String.leb. rewrite (String.compare_antisym s2 s1).
  now destruct (String.compare s1 s2).
Qed.

(** ** The sort: a sorted permutation *)

Section SortSliceFacts.
Context {A : Type} (less : A -> A -> bool) (le : A -> A -> Prop).
Hypothesis le_trans : forall a b c, le a b -> le b c -> le a c.
Hypothesis less_le : forall a b, less a b = true -> le a b.
Hypothesis nless_le : forall a b, less a b = false -> le b a.

Lemma sift_perm (x : A) (l : list A) : Permutation (sift less x l) (x :: l).
Proof.
  induction l as [|y l IH]; simpl; [reflexivity|].
  destruct (less x y); [|reflexivity].
  rewrite IH. apply perm_swap.
Qed.

Lemma fold_sift_perm (data : list A) :
  forall acc,
    Permutation (fold_left (fun p x => sift less x p) data acc) (data ++ acc).
Proof.
  induction data as [|x data IH]; intros acc; simpl; [reflexivity|].
  rewrite IH, sift_perm. symmetry. apply Permutation_middle.
Qed.

Lemma sort_Slice_perm (data : list A) :
  Permutation (sort_Slice less data) data.
Proof.
  unfold sort_Slice. rewrite <- Permutation_rev, fold_sift_perm.
  now rewrite app_nil_r.
Qed.

(** The reversed prefix is kept in descending order. *)
Lemma sift_sorted (x : A) (l : list A) :
  StronglySorted (fun a b => le b a) l ->
  StronglySorted (fun a b => le b a) (sift less x l).
Proof.
  induction l as [|y l IH]; intros Hl; simpl.
  - repeat constructor.
  - inversion Hl as [|? ? Hs Hy]; subst.
    destruct (less x y) eqn:Hxy.
    + constructor; [now apply IH|].
      apply (Permutation_Forall (Permutation_sym (sift_perm x l))).
      constructor; [now apply less_le | exact Hy].
    + constructor; [exact Hl|].
      constructor; [now apply nless_le|].
      apply Forall_forall. intros b Hb.
      rewrite Forall_forall in Hy.
      apply le_trans with y; [now apply Hy | now apply nless_le].
Qed.

Lemma fold_sift_sorted (data : list A) :
  forall acc,
    StronglySorted (fun a b => le b a) acc ->
    StronglySorted (fun a b => le b a)
                   (fold_left (fun p x => sift less x p) data acc).
Proof.
  induction data as [|x data IH]; intros acc Hacc; simpl; [exact Hacc|].
  apply IH. now apply sift_sorted.
Qed.

Lemma StronglySorted_snoc (R : A -> A -> Prop) (l : list A) (x : A) :
  StronglySorted R l -> Forall (fun a => R a x) l ->
  StronglySorted R (l ++ [x]).
Proof.
  induction 1 as [|a l Hs IH Ha]; intros Hx; simpl.
  - repeat constructor.
  - inversion Hx; subst. constructor; [now apply IH|].
    apply Forall_app. split; [exact Ha | now repeat constructor].
Qed.

Lemma StronglySorted_rev (l : list A) :
  StronglySorted (fun a b => le b a) l -> StronglySorted le (rev l).
Proof.
  induction 1 as [|a l Hs IH Ha]; simpl; [constructor|].
  apply StronglySorted_snoc; [exact IH|].
  apply Forall_rev. exact Ha.
Qed.

Lemma sort_Slice_sorted (data : list A) :
  StronglySorted le (sort_Slice less data).
Proof.
  unfold sort_Slice. apply StronglySorted_rev, fold_sift_sorted. constructor.
Qed.
End SortSliceFacts.

Lemma sort_Type_perm (cs : list metav1.Condition) :
  Permutation (sort_Slice less_Type cs) cs.
Proof. apply sort_Slice_perm. Qed.

Lemma sort_Type_sorted (cs : list metav1.Condition) :
  sorted_by_Type (sort_Slice less_Type cs).
Proof.
  apply sort_Slice_sorted; unfold Type_le, less_Type.
  - intros a b c. apply String_leb_trans.
  - intros a b. apply String_ltb_leb.
  - intros a b. apply String_nltb_leb.
Qed.

(** ** The loop and the upsert *)

Lemma same_but_timeb_spec (a b : metav1.Condition) :
  same_but_timeb a b = true <-> same_but_time a b.
Proof.
  unfold same_but_timeb, same_but_time.
  rewrite !andb_true_iff, !String.eqb_eq, Z.eqb_eq. tauto.
Qed.

Lemma DeepEqual_carried (condition c : metav1.Condition) :
  DeepEqual (set_LastTransitionTime (metav1.LastTransitionTime c) condition) c
  = same_but_timeb condition c.
Proof.
  unfold DeepEqual, same_but_timeb; simpl.
  rewrite Z.eqb_refl, andb_true_r. reflexivity.
Qed.

Lemma set_LastTransitionTime_same (c : metav1.Condition) :
  set_LastTransitionTime (metav1.LastTransitionTime c) c = c.
Proof. destruct c; reflexivity. Qed.

Lemma setCondition_loop_eq (range : list metav1.Condition) :
  forall condition conditions,
    setCondition_loop range condition conditions =
    if existsb (same_but_timeb condition) range then None
    else Some (set_LastTransitionTime
                 (carried_time (metav1.Type_ condition) range
                               (metav1.LastTransitionTime condition))
                 condition,
               conditions ++ others (metav1.Type_ condition) range).
Proof.
  induction range as [|c rest IH]; intros condition conditions; simpl.
  - unfold carried_time; simpl.
    now rewrite set_LastTransitionTime_same, app_nil_r.
  - unfold carried_time; simpl.
    destruct (String.eqb (metav1.Type_ c) (metav1.Type_ condition)) eqn:E; simpl.
    + rewrite DeepEqual_carried.
      destruct (same_but_timeb condition c); simpl; [reflexivity|].
      now rewrite IH.
    + assert (N : same_but_timeb condition c = false).
      { unfold same_but_timeb. rewrite String.eqb_sym, E. reflexivity. }
      rewrite N, IH, <- app_assoc. reflexivity.
Qed.

(** The method is the upsert. *)
Lemma setCondition_upsert (condition : metav1.Condition) (w : World) :
  setCondition condition w = upsert condition w.
Proof.
  unfold setCondition, upsert. rewrite setCondition_loop_eq.
  destruct (existsb (same_but_timeb condition) (Conditions (status w)));
    reflexivity.
Qed.

Lemma upsert_noop (condition : metav1.Condition) (w : World) :
  (exists c, In c (Conditions (status w)) /\ same_but_time condition c) ->
  setCondition condition w = w.
Proof.
  intros (c & Hin & Hc). rewrite setCondition_upsert. unfold upsert.
  replace (existsb _ _) with true; [reflexivity|].
  symmetry. apply existsb_exists. exists c. now rewrite same_but_timeb_spec.
Qed.

(** What a call leaves behind: either nothing was touched, or the list is
    the sorted result of line 191-192 and the clock was read once. *)
Lemma setCondition_cases (condition : metav1.Condition) (w : World) :
  setCondition condition w = w
  \/ (existsb (same_but_timeb condition) (Conditions (status w)) = false
      /\ setCondition condition w =
         set_Conditions
           (sort_Slice less_Type
              (others (metav1.Type_ condition) (Conditions (status w))
               ++ [set_LastTransitionTime (wall w (ticks w)) condition]))
           (snd (time_Now w))).
Proof.
  rewrite setCondition_upsert. unfold upsert.
  destruct (existsb _ _); [now left | now right].
Qed.

(** After a call the list holds the condition, up to its timestamp. *)
Lemma setCondition_present (condition : metav1.Condition) (w : World) :
  exists c, In c (Conditions (status (setCondition condition w)))
            /\ same_but_time condition c.
Proof.
  rewrite setCondition_upsert. unfold upsert.
  destruct (existsb _ _) eqn:E.
  - apply existsb_exists in E. destruct E as (c & Hin & Hc).
    exists c. now rewrite <- same_but_timeb_spec.
  - exists (set_LastTransitionTime (wall w (ticks w)) condition). split.
    + simpl. apply (Permutation_in _ (Permutation_sym (sort_Type_perm _))).
      apply in_or_app. right. now left.
    + repeat split.
Qed.

Lemma setCondition_idem (condition : metav1.Condition) (w : World) :
  setCondition condition (setCondition condition w) = setCondition condition w.
Proof. apply upsert_noop, setCondition_present. Qed.

(** ** Lists *)

Lemma Permutation_filter {A : Type} (f : A -> bool) (l l' : list A) :
  Permutation l l' -> Permutation (filter f l) (filter f l').
Proof.
  induction 1 as [|x l l' _ IH|x y l|l l' l'' _ IH1 _ IH2]; simpl.
  - constructor.
  - destruct (f x); [now constructor | exact IH].
  - destruct (f x), (f y); try reflexivity. apply perm_swap.
  - now transitivity (filter f l').
Qed.

Lemma of_Type_others (t : string) (cs : list metav1.Condition) :
  of_Type t (others t cs) = [].
Proof.
  unfold of_Type, others. induction cs as [|c cs IH]; simpl; [reflexivity|].
  destruct (String.eqb (metav1.Type_ c) t) eqn:E; simpl; [exact IH|].
  now rewrite E.
Qed.

Lemma In_others (t : string) (c : metav1.Condition) (cs : list metav1.Condition) :
  In c (others t cs) <-> In c cs /\ metav1.Type_ c <> t.
Proof.
  unfold others. rewrite filter_In, negb_true_iff, String.eqb_neq. tauto.
Qed.

Lemma unique_Types_others (t : string) (cs : list metav1.Condition) :
  unique_Types cs -> unique_Types (others t cs).
Proof.
  unfold unique_Types, others. induction cs as [|c cs IH]; simpl; intros H.
  - constructor.
  - inversion H as [|? ? Hn Hd]; subst.
    destruct (negb (String.eqb (metav1.Type_ c) t)); simpl; [|now apply IH].
    constructor; [|now apply IH].
    intros Hin. apply Hn. apply in_map_iff in Hin.
    destruct Hin as (c' & E & Hc'). apply filter_In in Hc'.
    apply in_map_iff. exists c'. tauto.
Qed.

Lemma unique_Types_inj (cs : list metav1.Condition) :
  unique_Types cs ->
  forall a b, In a cs -> In b cs -> metav1.Type_ a = metav1.Type_ b -> a = b.
Proof.
  unfold unique_Types.
  induction cs as [|c cs IH]; simpl; intros U a b Ha Hb E; [tauto|].
  inversion U as [|? ? Hn Hd]; subst.
  destruct Ha as [->|Ha], Hb as [->|Hb]; auto.
  - exfalso. apply Hn. rewrite E. now apply in_map.
  - exfalso. apply Hn. rewrite <- E. now apply in_map.
Qed.

(** ** Frames of [setCondition] *)

Lemma setCondition_frame (condition : metav1.Condition) (w : World) :
  Phase (status (setCondition condition w)) = Phase (status w)
  /\ Message (status (setCondition condition w)) = Message (status w)
  /\ CommitStatus_ (status (setCondition condition w)) = CommitStatus_ (status w)
  /\ wall (setCondition condition w) = wall w.
Proof.
  destruct (setCondition_cases condition w) as [E|[_ E]]; rewrite E;
    repeat split.
Qed.

Lemma InitializeConditions_frame (ts : list ConditionType) :
  forall w,
    Phase (status (InitializeConditions ts w)) = Phase (status w)
    /\ Message (status (InitializeConditions ts w)) = Message (status w)
    /\ CommitStatus_ (status (InitializeConditions ts w))
       = CommitStatus_ (status w)
    /\ wall (InitializeConditions ts w) = wall w.
Proof.
  unfold InitializeConditions.
  induction ts as [|t ts IH]; intros w; simpl; [repeat split|].
  destruct (IH (setCondition (Unknown_condition t) w)) as (P & M & C & W).
  destruct (setCondition_frame (Unknown_condition t) w) as (P' & M' & C' & W').
  unfold Unknown_condition in *.
  rewrite P, M, C, W. auto.
Qed.

Lemma setCondition_SetPhase (condition : metav1.Condition)
    (phase : GitSyncPhase) (msg : string) (w : World) :
  setCondition condition (SetPhase phase msg w)
  = SetPhase phase msg (setCondition condition w).
Proof.
  rewrite !setCondition_upsert. unfold upsert; simpl.
  destruct (existsb _ _); reflexivity.
Qed.

Lemma InitializeConditions_SetPhase (ts : list ConditionType)
    (phase : GitSyncPhase) (msg : string) :
  forall w,
    InitializeConditions ts (SetPhase phase msg w)
    = SetPhase phase msg (InitializeConditions ts w).
Proof.
  unfold InitializeConditions.
  induction ts as [|t ts IH]; intros w; simpl; [reflexivity|].
  now rewrite setCondition_SetPhase, IH.
Qed.

Lemma SetPhase_SetPhase (p p' : GitSyncPhase) (m m' : string) (w : World) :
  SetPhase p m (SetPhase p' m' w) = SetPhase p m w.
Proof. reflexivity. Qed.

(** ** Conditions of other types survive a call *)

Lemma setCondition_keeps (condition c : metav1.Condition) (w : World) :
  In c (Conditions (status w)) ->
  metav1.Type_ c <> metav1.Type_ condition ->
  In c (Conditions (status (setCondition condition w))).
Proof.
  intros Hin Hne.
  destruct (setCondition_cases condition w) as [E|[_ E]]; rewrite E;
    [exact Hin|].
  simpl. apply (Permutation_in _ (Permutation_sym (sort_Type_perm _))).
  apply in_or_app. left. now apply In_others.
Qed.

(** A type is initialized when its Unknown condition is in the list. *)
Lemma initialized_kept (t t' : ConditionType) (w : World) :
  (exists c, In c (Conditions (status w))
             /\ same_but_time (Unknown_condition t) c) ->
  exists c, In c (Conditions (status (setCondition (Unknown_condition t') w)))
            /\ same_but_time (Unknown_condition t) c.
Proof.
  intros (c & Hin & Hc).
  destruct (String.eqb t t') eqn:E.
  - apply String.eqb_eq in E; subst. apply setCondition_present.
  - apply String.eqb_neq in E. exists c. split; [|exact Hc].
    apply setCondition_keeps; [exact Hin|].
    destruct Hc as (Ht & _). simpl in *. congruence.
Qed.

Lemma InitializeConditions_kept (t : ConditionType) (ts : list ConditionType) :
  forall w,
    (exists c, In c (Conditions (status w))
               /\ same_but_time (Unknown_condition t) c) ->
    exists c, In c (Conditions (status (InitializeConditions ts w)))
              /\ same_but_time (Unknown_condition t) c.
Proof.
  unfold InitializeConditions.
  induction ts as [|t' ts IH]; intros w H; simpl; [exact H|].
  apply IH. now apply (initialized_kept t t').
Qed.

Lemma InitializeConditions_present (ts : list ConditionType) :
  forall w t, In t ts ->
    exists c, In c (Conditions (status (InitializeConditions ts w)))
              /\ same_but_time (Unknown_condition t) c.
Proof.
  induction ts as [|t' ts IH]; intros w t Hin; [destruct Hin|].
  destruct Hin as [->|Hin].
  - apply (InitializeConditions_kept t ts
             (setCondition (Unknown_condition t) w)).
    apply setCondition_present.
  - apply (IH (setCondition (Unknown_condition t') w) t Hin).
Qed.

Lemma InitializeConditions_noop (ts : list ConditionType) (w : World) :
  (forall t, In t ts ->
     exists c, In c (Conditions (status w))
               /\ same_but_time (Unknown_condition t) c) ->
  InitializeConditions ts w = w.
Proof.
  unfold InitializeConditions.
  induction ts as [|t ts IH]; intros H; simpl; [reflexivity|].
  pose proof (upsert_noop (Unknown_condition t) w (H t (or_introl eq_refl)))
    as E.
  unfold Unknown_condition in E. rewrite E.
  apply IH. intros t' Ht'. apply H. now right.
Qed.

Lemma InitializeConditions_idem (ts : list ConditionType) (w : World) :
  InitializeConditions ts (InitializeConditions ts w)
  = InitializeConditions ts w.
Proof.
  apply InitializeConditions_noop. intros t Ht.
  now apply InitializeConditions_present.
Qed.

(** Every method, called again with the same arguments, changes nothing:
    neither the status nor the number of clock readings. *)
Lemma call_idem (c : Call) (w : World) : call c (call c w) = call c w.
Proof.
  destruct c; simpl;
    unfold InitConditions, MarkRunning, MarkFailed, MarkNotApplicable,
           MarkConditionTrue, MarkConditionFalse, MarkConditionUnknown,
           markTypeStatus;
    rewrite ?setCondition_SetPhase, ?InitializeConditions_SetPhase,
            ?SetPhase_SetPhase, ?setCondition_idem,
            ?InitializeConditions_idem;
    reflexivity.
Qed.

(** ** Re-asserting a condition *)

(** C1, as the code has it: when the list holds a condition [c] that agrees
    with the incoming one on every field other than LastTransitionTime --
    Type, Status, Reason, Message and also ObservedGeneration --
    [setCondition] returns without touching anything: the status, with every
    condition and timestamp in it, is what it was, and the clock is not
    read. *)
Theorem setCondition_identical_noop
    (w : World) (condition c : metav1.Condition) :
  In c (Conditions (status w)) ->
  same_but_time condition c ->
  setCondition condition w = w.
Proof.
  intros Hin Hc. apply upsert_noop. now exists c.
Qed.

Lemma setCondition_identical_noop_witness :
  setCondition
    (metav1.mkCondition "Configured" "True" 1%Z 0%Z "Successful" "Successful")
    with_generation
  = with_generation.
Proof.
  apply (setCondition_identical_noop with_generation
           (metav1.mkCondition "Configured" "True" 1%Z 0%Z
                               "Successful" "Successful")
           (metav1.mkCondition "Configured" "True" 1%Z 5%Z
                               "Successful" "Successful")).
  - simpl. left. reflexivity.
  - unfold same_but_time. simpl. repeat split; reflexivity.
Defined.

(** C1 as worded fails: the stored condition and the incoming one agree on
    Type, Status, Reason and Message, the stored one carries
    ObservedGeneration 1 while the literal of [markTypeStatus] has 0, and
    the call rewrites the condition with a new timestamp. *)
Lemma setCondition_identical_counterexample :
  In (metav1.mkCondition "Configured" "True" 1%Z 5%Z "Successful" "Successful")
     (Conditions (status with_generation))
  /\ shown (metav1.mkCondition "Configured" "True" 0%Z 0%Z
                               "Successful" "Successful")
     = shown (metav1.mkCondition "Configured" "True" 1%Z 5%Z
                                 "Successful" "Successful")
  /\ Conditions (status (setCondition
                           (metav1.mkCondition "Configured" "True" 0%Z 0%Z
                                               "Successful" "Successful")
                           with_generation))
     = [metav1.mkCondition "Configured" "True" 0%Z 100%Z
                           "Successful" "Successful"]
  /\ Conditions (status (setCondition
                           (metav1.mkCondition "Configured" "True" 0%Z 0%Z
                                               "Successful" "Successful")
                           with_generation))
     <> Conditions (status with_generation).
Proof.
  split; [left; reflexivity|].
  split; [reflexivity|].
  split; [reflexivity|].
  vm_compute. discriminate.
Qed.

(** C2: every operation, called a second time with the arguments of the
    first call, leaves the condition list exactly as the first call left it,
    timestamps included. *)
Theorem call_twice_same_Conditions (c : Call) (w : World) :
  Conditions (status (call c (call c w))) = Conditions (status (call c w)).
Proof. now rewrite call_idem. Qed.

(** ** Frames *)

(** C9: [SetPhase] writes the two fields it is given, whatever they are, and
    nothing else. *)
Theorem SetPhase_overwrites
    (phase : GitSyncPhase) (msg : string) (w : World) :
  Phase (status (SetPhase phase msg w)) = phase
  /\ Message (status (SetPhase phase msg w)) = msg
  /\ Conditions (status (SetPhase phase msg w)) = Conditions (status w)
  /\ CommitStatus_ (status (SetPhase phase msg w)) = CommitStatus_ (status w)
  /\ ticks (SetPhase phase msg w) = ticks w.
Proof. repeat split. Qed.

(** Replaces an inner call by a world with the same Phase, Message and
    CommitStatus. *)
Ltac use_frame :=
  match goal with
  | |- context [setCondition ?a ?b] =>
      let H := fresh in
      destruct (setCondition_frame a b) as (? & ? & H & ?);
      rewrite ?H; clear H;
      generalize dependent (setCondition a b); intros
  | |- context [InitializeConditions ?a ?b] =>
      let H := fresh in
      destruct (InitializeConditions_frame a b) as (? & ? & H & ?);
      rewrite ?H; clear H;
      generalize dependent (InitializeConditions a b); intros
  end.

(** C10: the operations that only go through [setCondition] leave Phase,
    Message and CommitStatus alone, and no operation writes CommitStatus. *)
Theorem calls_frame (c : Call) (w : World) :
  CommitStatus_ (status (call c w)) = CommitStatus_ (status w)
  /\ (condition_call c = true ->
      Phase (status (call c w)) = Phase (status w)
      /\ Message (status (call c w)) = Message (status w)).
Proof.
  destruct c; simpl;
    unfold InitConditions, MarkRunning, MarkFailed, MarkNotApplicable,
           MarkConditionTrue, MarkConditionFalse, MarkConditionUnknown,
           markTypeStatus; simpl;
    repeat use_frame;
    split; try reflexivity; try discriminate; intros _; split; congruence.
Qed.

Lemma calls_frame_witness :
  Phase (status (call (CallMarkConditionFalse "Configured" "GitError" "x")
                      with_generation))
  = GitSyncPhaseRunning.
Proof.
  exact (proj1 (proj2 (calls_frame
                         (CallMarkConditionFalse "Configured" "GitError" "x")
                         with_generation) eq_refl)).
Defined.

(** ** The list after a call that is not a no-op *)

Lemma setCondition_of_Type (condition : metav1.Condition) (w : World) :
  existsb (same_but_timeb condition) (Conditions (status w)) = false ->
  of_Type (metav1.Type_ condition)
          (Conditions (status (setCondition condition w)))
  = [set_LastTransitionTime (wall w (ticks w)) condition].
Proof.
  intros E. rewrite setCondition_upsert. unfold upsert. rewrite E. simpl.
  apply Permutation_length_1_inv. symmetry.
  unfold of_Type at 1.
  rewrite (Permutation_filter _ _ _ (sort_Type_perm _)), filter_app.
  fold (of_Type (metav1.Type_ condition)
                (others (metav1.Type_ condition) (Conditions (status w)))).
  rewrite of_Type_others. simpl. now rewrite String.eqb_refl.
Qed.

Lemma setCondition_unique (condition : metav1.Condition) (w : World) :
  unique_Types (Conditions (status w)) ->
  unique_Types (Conditions (status (setCondition condition w))).
Proof.
  intros U.
  destruct (setCondition_cases condition w) as [E|[_ E]]; rewrite E;
    [exact U|].
  simpl. unfold unique_Types.
  apply (Permutation_NoDup
           (Permutation_map metav1.Type_
              (Permutation_sym (sort_Type_perm _)))).
  rewrite map_app. simpl.
  apply (Permutation_NoDup (Permutation_cons_append _ _)).
  constructor.
  - intros Hin. apply in_map_iff in Hin. destruct Hin as (c & Ec & Hc).
    apply In_others in Hc. tauto.
  - now apply unique_Types_others.
Qed.

Lemma InitializeConditions_unique (ts : list ConditionType) :
  forall w,
    unique_Types (Conditions (status w)) ->
    unique_Types (Conditions (status (InitializeConditions ts w))).
Proof.
  unfold InitializeConditions.
  induction ts as [|t ts IH]; intros w U; simpl; [exact U|].
  apply IH. now apply setCondition_unique.
Qed.

Lemma call_unique (c : Call) (w : World) :
  unique_Types (Conditions (status w)) ->
  unique_Types (Conditions (status (call c w))).
Proof.
  intros U.
  destruct c; simpl;
    unfold InitConditions, MarkRunning, MarkFailed, MarkNotApplicable,
           MarkConditionTrue, MarkConditionFalse, MarkConditionUnknown,
           markTypeStatus; simpl;
    auto using setCondition_unique, InitializeConditions_unique.
Qed.

Lemma setCondition_sorted (condition : metav1.Condition) (w : World) :
  sorted_by_Type (Conditions (status w)) ->
  sorted_by_Type (Conditions (status (setCondition condition w))).
Proof.
  intros S.
  destruct (setCondition_cases condition w) as [E|[_ E]]; rewrite E;
    [exact S|].
  simpl. apply sort_Type_sorted.
Qed.

Lemma setCondition_trace_sorted (conditions : list metav1.Condition) :
  forall w,
    sorted_by_Type (Conditions (status w)) ->
    sorted_after_each_call conditions w.
Proof.
  unfold sorted_after_each_call.
  induction conditions as [|c cs IH]; intros w S; simpl; [constructor|].
  pose proof (setCondition_sorted c w S) as S'.
  constructor; [exact S' | now apply IH].
Qed.

(** ** Uniqueness *)

(** C3: when the list holds at most one condition per Type, it still does
    after a call of [setCondition], and after any sequence of calls of the
    operations. *)
Theorem unique_Types_preserved (w : World) :
  unique_Types (Conditions (status w)) ->
  (forall condition,
     unique_Types (Conditions (status (setCondition condition w))))
  /\ (forall calls, unique_Types (Conditions (status (run calls w)))).
Proof.
  intros U. split.
  - intros condition. now apply setCondition_unique.
  - intros calls. revert w U. unfold run.
    induction calls as [|c calls IH]; intros w U; simpl; [exact U|].
    apply IH. now apply call_unique.
Qed.

Lemma unique_Types_preserved_witness :
  unique_Types
    (Conditions (status (run [CallInitConditions; CallMarkRunning;
                              CallMarkConditionUnknown "Synced" "Unknown" ""]
                             with_generation))).
Proof.
  apply (proj2 (unique_Types_preserved with_generation
                  ltac:(repeat constructor; simpl; tauto))).
Defined.

(** ** Ordering *)

(** C4, as the code has it: started on a status whose list is sorted by
    Type, every sequence of [setCondition] calls with distinct Types leaves
    the list sorted by Type, ascending, after each call. *)
Theorem setCondition_keeps_sorted
    (w : World) (conditions : list metav1.Condition) :
  sorted_by_Type (Conditions (status w)) ->
  NoDup (map metav1.Type_ conditions) ->
  sorted_after_each_call conditions w.
Proof.
  intros S _. now apply setCondition_trace_sorted.
Qed.

Lemma setCondition_keeps_sorted_witness :
  sorted_after_each_call
    [Unknown_condition "B"; Unknown_condition "A"]
    (mkWorld sample_clock 0 fresh).
Proof.
  apply (setCondition_keeps_sorted (mkWorld sample_clock 0 fresh)
           [Unknown_condition "B"; Unknown_condition "A"]).
  - simpl. constructor.
  - simpl. repeat constructor; simpl; intuition discriminate.
Defined.

(** C4 as worded fails on a status whose list is not sorted to begin with:
    the call below finds its condition already there and returns before the
    sort, so the list is still B, A after it. *)
Lemma setCondition_sorted_counterexample :
  NoDup (map metav1.Type_ [Unknown_condition "A"])
  /\ Conditions (status (setCondition (Unknown_condition "A") out_of_order))
     = [metav1.mkCondition "B" "Unknown" 0%Z 1%Z "Unknown" "";
        metav1.mkCondition "A" "Unknown" 0%Z 2%Z "Unknown" ""]
  /\ ~ sorted_after_each_call [Unknown_condition "A"] out_of_order.
Proof.
  split; [repeat constructor; simpl; tauto|].
  split; [reflexivity|].
  unfold sorted_after_each_call. simpl. intros H.
  inversion H as [|? ? S _]; subst.
  vm_compute in S.
  inversion S as [|? ? _ F]; subst.
  inversion F as [|? ? L _]; subst.
  vm_compute in L. discriminate.
Qed.

(** ** Timestamps *)

(** C5, as the code has it: on a status that holds exactly one condition [c]
    of the incoming Type, an upsert that differs from [c] in Status, Reason,
    Message or ObservedGeneration stores the incoming condition stamped with
    the current time, which is not before the previous stamp when that was
    an earlier reading of a monotone clock; an upsert that differs in none
    of these four fields changes nothing, the timestamp included. *)
Theorem setCondition_timestamp
    (w : World) (condition c : metav1.Condition) :
  In c (Conditions (status w)) ->
  metav1.Type_ c = metav1.Type_ condition ->
  (forall c', In c' (Conditions (status w)) ->
              metav1.Type_ c' = metav1.Type_ condition -> c' = c) ->
  ((metav1.Status condition <> metav1.Status c
    \/ metav1.Reason condition <> metav1.Reason c
    \/ metav1.Message condition <> metav1.Message c
    \/ metav1.ObservedGeneration condition <> metav1.ObservedGeneration c) ->
   of_Type (metav1.Type_ condition)
           (Conditions (status (setCondition condition w)))
   = [set_LastTransitionTime (wall w (ticks w)) condition]
   /\ (monotone (wall w) ->
       forall i, (i <= ticks w)%nat ->
                 metav1.LastTransitionTime c = wall w i ->
                 (metav1.LastTransitionTime c <= wall w (ticks w))%Z))
  /\ ((metav1.Status condition = metav1.Status c
       /\ metav1.Reason condition = metav1.Reason c
       /\ metav1.Message condition = metav1.Message c
       /\ metav1.ObservedGeneration condition = metav1.ObservedGeneration c) ->
      setCondition condition w = w).
Proof.
  intros Hin Ht Huniq. split.
  - intros Hdiff. split.
    + apply setCondition_of_Type.
      destruct (existsb _ _) eqn:E; [exfalso|reflexivity].
      apply existsb_exists in E. destruct E as (c' & Hin' & Hc').
      apply same_but_timeb_spec in Hc'.
      destruct Hc' as (T' & S' & G' & R' & M').
      assert (c' = c) by (apply Huniq; [exact Hin' | now symmetry]).
      subst c'. tauto.
    + intros Hmono i Hi ->. now apply Hmono.
  - intros (S' & R' & M' & G'). apply upsert_noop. exists c.
    split; [exact Hin|]. unfold same_but_time. auto.
Qed.

Lemma setCondition_timestamp_witness :
  of_Type "Configured"
    (Conditions (status (setCondition
                           (metav1.mkCondition "Configured" "False" 0%Z 0%Z
                                               "GitError" "clone failed")
                           with_generation)))
  = [metav1.mkCondition "Configured" "False" 0%Z 100%Z
                        "GitError" "clone failed"]
  /\ setCondition
       (metav1.mkCondition "Configured" "True" 1%Z 0%Z
                           "Successful" "Successful")
       with_generation
     = with_generation.
Proof.
  split.
  - refine (proj1 (proj1 (setCondition_timestamp with_generation
             (metav1.mkCondition "Configured" "False" 0%Z 0%Z
                                 "GitError" "clone failed")
             (metav1.mkCondition "Configured" "True" 1%Z 5%Z
                                 "Successful" "Successful")
             _ _ _) _)).
    + simpl. left. reflexivity.
    + reflexivity.
    + simpl. intros c' [E|[]] _. symmetry. exact E.
    + left. simpl. discriminate.
  - refine (proj2 (setCondition_timestamp with_generation
             (metav1.mkCondition "Configured" "True" 1%Z 0%Z
                                 "Successful" "Successful")
             (metav1.mkCondition "Configured" "True" 1%Z 5%Z
                                 "Successful" "Successful")
             _ _ _) _).
    + simpl. left. reflexivity.
    + reflexivity.
    + simpl. intros c' [E|[]] _. symmetry. exact E.
    + simpl. repeat split; reflexivity.
Defined.

(** C5 as worded fails twice.  First, on a stored condition that carries
    ObservedGeneration 1 the call of [MarkConditionTrue] changes none of
    Status, Reason and Message, yet the timestamp goes from 5 to the
    current time 100.  Second, on a list with two conditions of the
    incoming Type the call differs from the first in Status and still
    returns at the second, leaving both timestamps as they were. *)
Lemma setCondition_timestamp_counterexample :
  (Conditions (status with_generation)
   = [metav1.mkCondition "Configured" "True" 1%Z 5%Z "Successful" "Successful"]
   /\ Conditions (status (MarkConditionTrue "Configured" with_generation))
      = [metav1.mkCondition "Configured" "True" 0%Z 100%Z
                            "Successful" "Successful"]
   /\ map shown (Conditions (status (MarkConditionTrue "Configured"
                                                       with_generation)))
      = map shown (Conditions (status with_generation))
   /\ map metav1.LastTransitionTime
          (Conditions (status (MarkConditionTrue "Configured" with_generation)))
      <> map metav1.LastTransitionTime (Conditions (status with_generation)))
  /\ (In (metav1.mkCondition "Configured" "True" 0%Z 1%Z
                             "Successful" "Successful")
         (Conditions (status with_duplicate))
      /\ setCondition
           (metav1.mkCondition "Configured" "False" 0%Z 0%Z
                               "GitError" "clone failed")
           with_duplicate
         = with_duplicate).
Proof.
  repeat split; simpl; auto. discriminate.
Qed.

(** ** Scenarios *)

(** C6: [InitConditions] sets Phase to Pending and Message to the empty
    string on every status, and leaves a Configured condition with Status
    Unknown, Reason "Unknown" and an empty Message in the list; on an empty
    list the result is that single condition, and on a status whose
    Configured conditions were True or False the one Configured condition
    left is the Unknown one, stamped now. *)
Theorem InitConditions_resets (w : World) :
  Phase (status (InitConditions w)) = GitSyncPhasePending
  /\ Message (status (InitConditions w)) = ""
  /\ (exists c, In c (Conditions (status (InitConditions w)))
                /\ shown c = ("Configured", "Unknown", "Unknown", ""))
  /\ (Conditions (status w) = [] ->
      Conditions (status (InitConditions w))
      = [metav1.mkCondition "Configured" "Unknown" 0%Z (wall w (ticks w))
                            "Unknown" ""])
  /\ ((forall c, In c (Conditions (status w)) ->
                 metav1.Type_ c = "Configured" ->
                 metav1.Status c = "True" \/ metav1.Status c = "False") ->
      of_Type "Configured" (Conditions (status (InitConditions w)))
      = [metav1.mkCondition "Configured" "Unknown" 0%Z (wall w (ticks w))
                            "Unknown" ""]).
Proof.
  unfold InitConditions, InitializeConditions. simpl.
  change (metav1.mkCondition GitSyncConditionConfigured
            metav1.ConditionUnknown 0%Z 0%Z "Unknown" "")
    with (Unknown_condition "Configured").
  repeat split.
  - destruct (setCondition_present (Unknown_condition "Configured") w)
      as (c & Hin & T & S & G & R & M).
    exists c. split; [exact Hin|].
    unfold shown. simpl in *. now rewrite <- T, <- S, <- R, <- M.
  - intros E. rewrite setCondition_upsert. unfold upsert. rewrite E.
    reflexivity.
  - intros H.
    apply (setCondition_of_Type (Unknown_condition "Configured") w).
    destruct (existsb _ _) eqn:E; [exfalso|reflexivity].
    apply existsb_exists in E. destruct E as (c & Hin & Hc).
    apply same_but_timeb_spec in Hc. destruct Hc as (T & S & _).
    simpl in T, S.
    destruct (H c Hin (eq_sym T)) as [F|F]; rewrite F in S; discriminate.
Qed.

Lemma InitConditions_resets_witness :
  Conditions (status (InitConditions (mkWorld sample_clock 0 fresh)))
  = [metav1.mkCondition "Configured" "Unknown" 0%Z 100%Z "Unknown" ""]
  /\ of_Type "Configured"
       (Conditions (status (InitConditions with_generation)))
     = [metav1.mkCondition "Configured" "Unknown" 0%Z 100%Z "Unknown" ""].
Proof.
  split.
  - exact (proj1 (proj2 (proj2 (proj2
             (InitConditions_resets (mkWorld sample_clock 0 fresh)))))
             eq_refl).
  - refine (proj2 (proj2 (proj2 (proj2
              (InitConditions_resets with_generation)))) _).
    simpl. intros c [E|[]] _. left. rewrite <- E. reflexivity.
Defined.

(** C7: [MarkFailed] sets Phase to Failed and Message to the given message,
    and upserts the Configured condition with Status False and the given
    reason and message; after Scenario B, [MarkFailed "GitError" "clone
    failed"] leaves Phase Failed, Message "clone failed" and the single
    condition Configured, False, "GitError", "clone failed". *)
Theorem MarkFailed_sets (reason message : string) (w : World) :
  Phase (status (MarkFailed reason message w)) = GitSyncPhaseFailed
  /\ Message (status (MarkFailed reason message w)) = message
  /\ Conditions (status (MarkFailed reason message w))
     = Conditions (status (setCondition
                             (metav1.mkCondition "Configured" "False" 0%Z 0%Z
                                                 reason message) w))
  /\ (exists c, In c (Conditions (status (MarkFailed reason message w)))
                /\ shown c = ("Configured", "False", reason, message))
  /\ (forall clock n,
        status (MarkFailed "GitError" "clone failed" (scenario_B clock n))
        = mkGitSyncStatus "Failed"
            [metav1.mkCondition "Configured" "False" 0%Z (clock (S (S n)))
                                "GitError" "clone failed"]
            "clone failed" None).
Proof.
  repeat split.
  - destruct (setCondition_present
                (metav1.mkCondition "Configured" "False" 0%Z 0%Z reason message)
                w) as (c & Hin & T & S & G & R & M).
    exists c. split; [exact Hin|].
    unfold shown. simpl in *. now rewrite <- T, <- S, <- R, <- M.
Qed.

(** C8: on an empty list, [InitializeConditions] with "A","B" and with
    "B","A" both end with the conditions A then B, each Unknown with reason
    "Unknown"; the two lists show the same Type, Status, Reason and Message
    in the same order. *)
Theorem InitializeConditions_argument_order (w1 w2 : World) :
  Conditions (status w1) = [] ->
  Conditions (status w2) = [] ->
  Conditions (status (InitializeConditions ["A"; "B"] w1))
  = [metav1.mkCondition "A" "Unknown" 0%Z (wall w1 (ticks w1)) "Unknown" "";
     metav1.mkCondition "B" "Unknown" 0%Z (wall w1 (S (ticks w1))) "Unknown" ""]
  /\ Conditions (status (InitializeConditions ["B"; "A"] w2))
     = [metav1.mkCondition "A" "Unknown" 0%Z (wall w2 (S (ticks w2)))
                           "Unknown" "";
        metav1.mkCondition "B" "Unknown" 0%Z (wall w2 (ticks w2)) "Unknown" ""]
  /\ map shown (Conditions (status (InitializeConditions ["A"; "B"] w1)))
     = [("A", "Unknown", "Unknown", ""); ("B", "Unknown", "Unknown", "")]
  /\ map shown (Conditions (status (InitializeConditions ["B"; "A"] w2)))
     = map shown (Conditions (status (InitializeConditions ["A"; "B"] w1))).
Proof.
  destruct w1 as [clock1 n1 [p1 cs1 m1 k1]], w2 as [clock2 n2 [p2 cs2 m2 k2]].
  simpl. intros -> ->. repeat split.
Qed.

Lemma InitializeConditions_argument_order_witness :
  map shown
    (Conditions (status (InitializeConditions ["B"; "A"]
                           (mkWorld sample_clock 7 fresh))))
  = map shown
      (Conditions (status (InitializeConditions ["A"; "B"]
                             (mkWorld sample_clock 0 fresh)))).
Proof.
  exact (proj2 (proj2 (proj2
           (InitializeConditions_argument_order
              (mkWorld sample_clock 0 fresh) (mkWorld sample_clock 7 fresh)
              eq_refl eq_refl)))).
Defined.

(** ** Statuses built by the methods

    The counterexamples above start from statuses that were not built by
    these methods: a stored ObservedGeneration, a list out of order, a Type
    stored twice.  On a status reached from the empty one through the
    methods none of these occurs, and the no-op and timestamp rules depend
    on Status, Reason and Message alone. *)

Lemma setCondition_generation (condition : metav1.Condition) (w : World) :
  metav1.ObservedGeneration condition = 0%Z ->
  Forall (fun c => metav1.ObservedGeneration c = 0%Z) (Conditions (status w)) ->
  Forall (fun c => metav1.ObservedGeneration c = 0%Z)
         (Conditions (status (setCondition condition w))).
Proof.
  intros G F.
  destruct (setCondition_cases condition w) as [E|[_ E]]; rewrite E;
    [exact F|].
  simpl. apply (Permutation_Forall (Permutation_sym (sort_Type_perm _))).
  apply Forall_app. split.
  - rewrite Forall_forall in *. intros c Hc. apply In_others in Hc.
    now apply F.
  - repeat constructor. exact G.
Qed.

Lemma setCondition_kept (condition : metav1.Condition) (w : World) :
  metav1.ObservedGeneration condition = 0%Z ->
  kept (Conditions (status w)) ->
  kept (Conditions (status (setCondition condition w))).
Proof.
  intros G (F & U & S). repeat split.
  - now apply setCondition_generation.
  - now apply setCondition_unique.
  - now apply setCondition_sorted.
Qed.

Lemma InitializeConditions_kept_invariant (ts : list ConditionType) :
  forall w,
    kept (Conditions (status w)) ->
    kept (Conditions (status (InitializeConditions ts w))).
Proof.
  unfold InitializeConditions.
  induction ts as [|t ts IH]; intros w K; simpl; [exact K|].
  apply IH. now apply setCondition_kept.
Qed.

Lemma call_kept (c : Call) (w : World) :
  from_methods c = true ->
  kept (Conditions (status w)) ->
  kept (Conditions (status (call c w))).
Proof.
  intros M K.
  destruct c; simpl in *;
    unfold InitConditions, MarkRunning, MarkFailed, MarkNotApplicable,
           MarkConditionTrue, MarkConditionFalse, MarkConditionUnknown,
           markTypeStatus; simpl;
    auto using setCondition_kept, InitializeConditions_kept_invariant.
  apply setCondition_kept; [now apply Z.eqb_eq | exact K].
Qed.

Lemma run_kept (calls : list Call) :
  forall w,
    forallb from_methods calls = true ->
    kept (Conditions (status w)) ->
    kept (Conditions (status (run calls w))).
Proof.
  unfold run.
  induction calls as [|c calls IH]; intros w M K; simpl in *; [exact K|].
  apply andb_true_iff in M. destruct M as (Mc & M).
  apply IH; [exact M | now apply call_kept].
Qed.

Lemma fresh_kept (clock : nat -> Z) (n : nat) :
  kept (Conditions (status (mkWorld clock n fresh))).
Proof. repeat constructor. Qed.

(** On such a status the no-op rule reads as the specification words it:
    a [markTypeStatus] that repeats Status, Reason and Message of the stored
    condition of its Type changes nothing. *)
Lemma markTypeStatus_noop_kept
    (t : ConditionType) (s : metav1.ConditionStatus) (reason message : string)
    (c : metav1.Condition) (w : World) :
  kept (Conditions (status w)) ->
  In c (Conditions (status w)) ->
  shown c = (t, s, reason, message) ->
  markTypeStatus t s reason message w = w.
Proof.
  intros (F & _ & _) Hin E. unfold markTypeStatus.
  apply upsert_noop. exists c. split; [exact Hin|].
  rewrite Forall_forall in F. specialize (F c Hin).
  unfold shown in E. injection E as T S R M.
  unfold same_but_time. simpl. auto.
Qed.

(** And a [markTypeStatus] that changes one of them stamps the condition of
    its Type with the current time. *)
Lemma markTypeStatus_stamps_kept
    (t : ConditionType) (s : metav1.ConditionStatus) (reason message : string)
    (c : metav1.Condition) (w : World) :
  kept (Conditions (status w)) ->
  In c (Conditions (status w)) ->
  metav1.Type_ c = t ->
  shown c <> (t, s, reason, message) ->
  of_Type t (Conditions (status (markTypeStatus t s reason message w)))
  = [metav1.mkCondition t s 0%Z (wall w (ticks w)) reason message].
Proof.
  intros (_ & U & _) Hin T D. unfold markTypeStatus.
  apply (setCondition_of_Type (metav1.mkCondition t s 0%Z 0%Z reason message)).
  destruct (existsb _ _) eqn:E; [exfalso|reflexivity].
  apply existsb_exists in E. destruct E as (c' & Hin' & Hc').
  apply same_but_timeb_spec in Hc'.
  destruct Hc' as (T' & S' & _ & R' & M'). simpl in *.
  assert (c' = c); [|subst c'].
  { apply (unique_Types_inj (Conditions (status w))); auto. congruence. }
  apply D. subst s reason message. unfold shown. now rewrite T.
Qed.

(** * Further properties of the source *)

(** ** Destination lookups *)



(** ** The printed name *)

Lemma append_slash_inj (ns1 : string) :
  forall ns2 n1 n2,
    has_byte "/" ns1 = false -> has_byte "/" ns2 = false ->
    (ns1 ++ "/" ++ n1 = ns2 ++ "/" ++ n2)%string ->
    ns1 = ns2 /\ n1 = n2.
Proof.
  induction ns1 as [|a ns1 IH]; intros [|b ns2] n1 n2 H1 H2 E; simpl in *.
  - injection E as E. auto.
  - injection E as Eb _. subst b. discriminate.
  - injection E as Ea _. subst a. discriminate.
  - injection E as Eab E. subst b.
    apply orb_false_iff in H1, H2.
    destruct (IH ns2 n1 n2 (proj2 H1) (proj2 H2) E) as (-> & ->). auto.
Qed.

(** X2: [String] separates namespace and name with a slash, so two
    resources whose namespaces contain no slash print the same only when
    they have the same namespace and the same name. *)
Theorem GitSync_String_injective (g1 g2 : GitSync) :
  has_byte "/" (metav1.Namespace (ObjectMeta_ g1)) = false ->
  has_byte "/" (metav1.Namespace (ObjectMeta_ g2)) = false ->
  GitSync_String g1 = GitSync_String g2 ->
  metav1.Namespace (ObjectMeta_ g1) = metav1.Namespace (ObjectMeta_ g2)
  /\ metav1.Name (ObjectMeta_ g1) = metav1.Name (ObjectMeta_ g2).
Proof.
  unfold GitSync_String. apply append_slash_inj.
Qed.

Lemma GitSync_String_injective_witness :
  metav1.Namespace (metav1.mkObjectMeta "sync" "team-a")
  = metav1.Namespace (metav1.mkObjectMeta "sync" "team-a")
  /\ metav1.Name (metav1.mkObjectMeta "sync" "team-a")
     = metav1.Name (metav1.mkObjectMeta "sync" "team-a").
Proof.
  apply (GitSync_String_injective
           (mkGitSync (metav1.mkObjectMeta "sync" "team-a")
              (mkGitSyncSpec (mkRepositoryPath "r" "u" "" "main")
                             (mkDestination "staging" ""))
              fresh)
           (mkGitSync (metav1.mkObjectMeta "sync" "team-a")
              (mkGitSyncSpec (mkRepositoryPath "r2" "u2" "p" "v1")
                             (mkDestination "production" "ns"))
              (status with_generation)));
    reflexivity.
Defined.

(** ** What a call of [setCondition] does to the list *)

Lemma others_others (t : string) (cs : list metav1.Condition) :
  others t (others t cs) = others t cs.
Proof.
  unfold others. induction cs as [|c cs IH]; simpl; [reflexivity|].
  destruct (negb (String.eqb (metav1.Type_ c) t)) eqn:N; simpl;
    [now rewrite N, IH | exact IH].
Qed.

Lemma setCondition_others_perm
    (condition : metav1.Condition) (w : World) :
  Permutation
    (others (metav1.Type_ condition)
            (Conditions (status (setCondition condition w))))
    (others (metav1.Type_ condition) (Conditions (status w))).
Proof.
  destruct (setCondition_cases condition w) as [E|[_ E]]; rewrite E;
    [reflexivity|].
  simpl.
  transitivity
    (others (metav1.Type_ condition)
       (others (metav1.Type_ condition) (Conditions (status w))
        ++ [set_LastTransitionTime (wall w (ticks w)) condition])).
  { unfold others.
    apply (Permutation_filter
             (fun c => negb (String.eqb (metav1.Type_ c)
                                        (metav1.Type_ condition)))).
    apply sort_Type_perm. }
  unfold others at 1. rewrite filter_app. simpl.
  rewrite String.eqb_refl. simpl. rewrite app_nil_r.
  fold (others (metav1.Type_ condition)
          (others (metav1.Type_ condition) (Conditions (status w)))).
  now rewrite others_others.
Qed.

(** X3: a call of [setCondition] neither adds, drops nor alters a condition
    of another Type: the conditions of other Types after the call are those
    before it, each as often as before. *)
Theorem setCondition_others_untouched
    (condition : metav1.Condition) (w : World) :
  Permutation
    (others (metav1.Type_ condition)
            (Conditions (status (setCondition condition w))))
    (others (metav1.Type_ condition) (Conditions (status w))).
Proof. apply setCondition_others_perm. Qed.

(** X4: [setCondition] changes something exactly when no stored condition
    agrees with the incoming one on every field but the timestamp; it reads
    the clock once in that case and not at all otherwise. *)
Theorem setCondition_changes_iff
    (condition : metav1.Condition) (w : World) :
  (setCondition condition w = w
   <-> exists c, In c (Conditions (status w)) /\ same_but_time condition c)
  /\ (setCondition condition w = w
      <-> Conditions (status (setCondition condition w))
          = Conditions (status w))
  /\ (setCondition condition w = w \/
      ticks (setCondition condition w) = S (ticks w)).
Proof.
  assert (A : (exists c, In c (Conditions (status w))
                         /\ same_but_time condition c) ->
              setCondition condition w = w) by apply upsert_noop.
  assert (B : Conditions (status (setCondition condition w))
              = Conditions (status w) ->
              exists c, In c (Conditions (status w))
                        /\ same_but_time condition c).
  { intros E. destruct (setCondition_present condition w) as (c & Hin & Hc).
    exists c. now rewrite <- E. }
  repeat split.
  - intros E. apply B. now rewrite E.
  - exact A.
  - intros E. now rewrite E.
  - intros E. auto.
  - destruct (setCondition_cases condition w) as [E|[_ E]]; [now left|].
    right. rewrite E. reflexivity.
Qed.

(** X5: whenever [setCondition] changes the status, whatever the list was
    before -- out of order, or holding the Type several times -- the new
    list is sorted by Type and holds the incoming Type exactly once, as the
    incoming condition stamped with the current time. *)
Theorem setCondition_change_repairs
    (condition : metav1.Condition) (w : World) :
  setCondition condition w <> w ->
  sorted_by_Type (Conditions (status (setCondition condition w)))
  /\ of_Type (metav1.Type_ condition)
             (Conditions (status (setCondition condition w)))
     = [set_LastTransitionTime (wall w (ticks w)) condition].
Proof.
  intros N.
  destruct (setCondition_cases condition w) as [E|[X E]]; [contradiction|].
  split.
  - rewrite E. simpl. apply sort_Type_sorted.
  - now apply setCondition_of_Type.
Qed.

Lemma setCondition_change_repairs_witness :
  sorted_by_Type
    (Conditions (status (setCondition (Unknown_condition "C") out_of_order)))
  /\ of_Type "C"
       (Conditions (status (setCondition (Unknown_condition "C") out_of_order)))
     = [metav1.mkCondition "C" "Unknown" 0%Z 100%Z "Unknown" ""].
Proof.
  apply (setCondition_change_repairs (Unknown_condition "C") out_of_order).
  vm_compute. discriminate.
Defined.

Lemma setCondition_changes_iff_witness :
  setCondition
    (metav1.mkCondition "B" "Unknown" 0%Z 0%Z "Unknown" "") out_of_order
  = out_of_order.
Proof.
  apply (proj2 (proj1 (setCondition_changes_iff
                         (metav1.mkCondition "B" "Unknown" 0%Z 0%Z "Unknown" "")
                         out_of_order))).
  exists (metav1.mkCondition "B" "Unknown" 0%Z 1%Z "Unknown" "").
  split; [simpl; auto | repeat split].
Defined.

(** ** Lookup after an upsert *)

Lemma of_Type_absent (t : string) (cs : list metav1.Condition) :
  ~ In t (map metav1.Type_ cs) -> of_Type t cs = [].
Proof.
  unfold of_Type. induction cs as [|c cs IH]; simpl; intros H; [reflexivity|].
  destruct (String.eqb_spec (metav1.Type_ c) t) as [E|N]; [tauto|].
  apply IH. tauto.
Qed.

Lemma of_Type_unique (c : metav1.Condition) (cs : list metav1.Condition) :
  unique_Types cs -> In c cs -> of_Type (metav1.Type_ c) cs = [c].
Proof.
  unfold unique_Types.
  induction cs as [|a cs IH]; simpl; intros U Hin; [tauto|].
  inversion U as [|? ? Hn Hd]; subst.
  destruct Hin as [->|Hin].
  - unfold of_Type. simpl. rewrite String.eqb_refl.
    fold (of_Type (metav1.Type_ c) cs). now rewrite of_Type_absent.
  - unfold of_Type. simpl.
    destruct (String.eqb_spec (metav1.Type_ a) (metav1.Type_ c)) as [E|N].
    + exfalso. apply Hn. rewrite E. now apply in_map.
    + now apply IH.
Qed.

Lemma length_others_of_Type (t : string) (cs : list metav1.Condition) :
  List.length cs = (List.length (others t cs) + List.length (of_Type t cs))%nat.
Proof.
  unfold others, of_Type. induction cs as [|c cs IH]; simpl; [reflexivity|].
  destruct (String.eqb (metav1.Type_ c) t); simpl; lia.
Qed.

Lemma setCondition_lookup (condition : metav1.Condition) (w : World) :
  unique_Types (Conditions (status w)) ->
  exists c,
    of_Type (metav1.Type_ condition)
            (Conditions (status (setCondition condition w))) = [c]
    /\ same_but_time condition c.
Proof.
  intros U.
  destruct (setCondition_cases condition w) as [E|[X E]].
  - rewrite E. pose proof (setCondition_present condition w) as P.
    rewrite E in P. destruct P as (c & Hin & Hc).
    exists c. split; [|exact Hc].
    destruct Hc as (T & _). rewrite T. now apply of_Type_unique.
  - exists (set_LastTransitionTime (wall w (ticks w)) condition).
    split; [now apply setCondition_of_Type | repeat split].
Qed.

(** X6: on a list with at most one condition per Type, looking up the
    incoming Type after [setCondition] gives exactly one condition, and it
    agrees with the incoming one on Type, Status, ObservedGeneration, Reason
    and Message. *)
Theorem setCondition_then_lookup
    (condition : metav1.Condition) (w : World) :
  unique_Types (Conditions (status w)) ->
  exists c,
    of_Type (metav1.Type_ condition)
            (Conditions (status (setCondition condition w))) = [c]
    /\ same_but_time condition c.
Proof. apply setCondition_lookup. Qed.

Lemma setCondition_then_lookup_witness :
  exists c,
    of_Type "Configured"
      (Conditions (status (setCondition
                             (metav1.mkCondition "Configured" "False" 0%Z 0%Z
                                                 "GitError" "clone failed")
                             with_generation))) = [c]
    /\ same_but_time
         (metav1.mkCondition "Configured" "False" 0%Z 0%Z
                             "GitError" "clone failed") c.
Proof.
  apply (setCondition_then_lookup
           (metav1.mkCondition "Configured" "False" 0%Z 0%Z
                               "GitError" "clone failed")
           with_generation).
  repeat constructor. simpl. tauto.
Defined.

(** X7: on a list with at most one condition per Type, [setCondition] adds
    one element when the incoming Type is not stored and keeps the length
    when it is. *)
Theorem setCondition_length (condition : metav1.Condition) (w : World) :
  unique_Types (Conditions (status w)) ->
  List.length (Conditions (status (setCondition condition w)))
  = if existsb (fun c => String.eqb (metav1.Type_ c) (metav1.Type_ condition))
               (Conditions (status w))
    then List.length (Conditions (status w))
    else S (List.length (Conditions (status w))).
Proof.
  intros U.
  destruct (existsb _ (Conditions (status w))) eqn:P.
  - destruct (setCondition_cases condition w) as [E|[X E]]; rewrite E;
      [reflexivity|].
    simpl. rewrite (Permutation_length (sort_Type_perm _)), length_app. simpl.
    apply existsb_exists in P. destruct P as (c & Hin & T).
    apply String.eqb_eq in T.
    rewrite (length_others_of_Type (metav1.Type_ condition)
                                   (Conditions (status w))).
    rewrite <- T, (of_Type_unique c _ U Hin). reflexivity.
  - destruct (setCondition_cases condition w) as [E|[X E]].
    + exfalso. pose proof (setCondition_present condition w) as Q.
      rewrite E in Q. destruct Q as (c & Hin & T & _).
      assert (F : existsb (fun c => String.eqb (metav1.Type_ c)
                                               (metav1.Type_ condition))
                          (Conditions (status w)) = true).
      { apply existsb_exists. exists c. split; [exact Hin|].
        now apply String.eqb_eq. }
      congruence.
    + rewrite E. simpl.
      rewrite (Permutation_length (sort_Type_perm _)), length_app. simpl.
      rewrite (length_others_of_Type (metav1.Type_ condition)
                                     (Conditions (status w))).
      rewrite of_Type_absent; [simpl; lia|].
      intros Hin. apply in_map_iff in Hin. destruct Hin as (c & T & Hin).
      assert (F : existsb (fun c => String.eqb (metav1.Type_ c)
                                               (metav1.Type_ condition))
                          (Conditions (status w)) = true).
      { apply existsb_exists. exists c. split; [exact Hin|].
        now apply String.eqb_eq. }
      congruence.
Qed.

Lemma setCondition_length_witness :
  List.length (Conditions (status (setCondition (Unknown_condition "Synced")
                                           with_generation)))
  = 2%nat.
Proof.
  apply (setCondition_length (Unknown_condition "Synced") with_generation).
  repeat constructor. simpl. tauto.
Defined.

(** ** Order of the list across an upsert *)

Lemma sorted_strings_perm_eq (l1 : list string) :
  forall l2,
    StronglySorted (fun a b => String.leb a b = true) l1 ->
    StronglySorted (fun a b => String.leb a b = true) l2 ->
    Permutation l1 l2 -> l1 = l2.
Proof.
  induction l1 as [|a l1 IH]; intros l2 S1 S2 P.
  - symmetry. now apply Permutation_nil.
  - destruct l2 as [|b l2];
      [symmetry in P; apply Permutation_nil in P; discriminate|].
    inversion S1 as [|? ? S1' F1]; inversion S2 as [|? ? S2' F2]; subst.
    assert (E : a = b).
    { assert (Ha : In a (b :: l2)) by (apply (Permutation_in _ P); now left).
      assert (Hb : In b (a :: l1))
        by (apply (Permutation_in _ (Permutation_sym P)); now left).
      destruct Ha as [->|Ha]; [reflexivity|].
      destruct Hb as [->|Hb]; [reflexivity|].
      rewrite Forall_forall in F1, F2.
      apply String.leb_antisym; auto. }
    subst b. f_equal. apply IH; auto.
    now apply Permutation_cons_inv with a.
Qed.

Lemma sorted_by_Type_map (cs : list metav1.Condition) :
  sorted_by_Type cs ->
  StronglySorted (fun a b => String.leb a b = true) (map metav1.Type_ cs).
Proof.
  induction 1 as [|c cs S IH F]; simpl; constructor; [exact IH|].
  rewrite Forall_forall in *. intros t Ht. apply in_map_iff in Ht.
  destruct Ht as (c' & <- & Hc'). now apply F.
Qed.

Lemma same_Types_perm_eq (l1 : list metav1.Condition) :
  forall l2,
    unique_Types l1 -> map metav1.Type_ l1 = map metav1.Type_ l2 ->
    Permutation l1 l2 -> l1 = l2.
Proof.
  induction l1 as [|a l1 IH]; intros [|b l2] U M P; simpl in *;
    try discriminate; [reflexivity|].
  injection M as T M.
  assert (E : a = b).
  { apply (unique_Types_inj (a :: l1) U); [now left| |exact T].
    apply (Permutation_in _ (Permutation_sym P)). now left. }
  subst b. f_equal. apply IH; auto.
  - unfold unique_Types in *. simpl in U. now inversion U.
  - now apply Permutation_cons_inv with a.
Qed.

Lemma sorted_unique_perm_eq (l1 l2 : list metav1.Condition) :
  sorted_by_Type l1 -> sorted_by_Type l2 -> unique_Types l1 ->
  Permutation l1 l2 -> l1 = l2.
Proof.
  intros S1 S2 U P. apply same_Types_perm_eq; auto.
  apply sorted_strings_perm_eq; auto using sorted_by_Type_map.
  now apply Permutation_map.
Qed.

Lemma sorted_others (t : string) (cs : list metav1.Condition) :
  sorted_by_Type cs -> sorted_by_Type (others t cs).
Proof.
  unfold others. induction 1 as [|c cs S IH F]; simpl; [constructor|].
  destruct (negb (String.eqb (metav1.Type_ c) t)); [|exact IH].
  constructor; [exact IH|].
  rewrite Forall_forall in *. intros c' Hc'. apply filter_In in Hc'.
  now apply F.
Qed.

Lemma others_of_Type_perm (t : string) (cs : list metav1.Condition) :
  Permutation cs (others t cs ++ of_Type t cs).
Proof.
  unfold others, of_Type. induction cs as [|c cs IH]; simpl; [reflexivity|].
  destruct (String.eqb (metav1.Type_ c) t); simpl.
  - now apply Permutation_cons_app.
  - now constructor.
Qed.

(** X8: on a list that is sorted by Type with at most one condition per
    Type, [setCondition] leaves the conditions of other Types in the order
    they had, and when the incoming Type is already stored the sequence of
    Types of the list is unchanged: the condition is replaced in place. *)
Theorem setCondition_in_place (condition : metav1.Condition) (w : World) :
  sorted_by_Type (Conditions (status w)) ->
  unique_Types (Conditions (status w)) ->
  others (metav1.Type_ condition)
         (Conditions (status (setCondition condition w)))
  = others (metav1.Type_ condition) (Conditions (status w))
  /\ (In (metav1.Type_ condition) (map metav1.Type_ (Conditions (status w))) ->
      map metav1.Type_ (Conditions (status (setCondition condition w)))
      = map metav1.Type_ (Conditions (status w))).
Proof.
  intros S U. split.
  - apply sorted_unique_perm_eq.
    + apply sorted_others. now apply setCondition_sorted.
    + now apply sorted_others.
    + apply unique_Types_others. now apply setCondition_unique.
    + apply setCondition_others_perm.
  - intros Hin. apply in_map_iff in Hin. destruct Hin as (c & T & Hin).
    apply sorted_strings_perm_eq.
    + apply sorted_by_Type_map. now apply setCondition_sorted.
    + now apply sorted_by_Type_map.
    + destruct (setCondition_cases condition w) as [E|[_ E]]; rewrite E;
        [reflexivity|].
      simpl. rewrite (Permutation_map metav1.Type_ (sort_Type_perm _)).
      rewrite (Permutation_map metav1.Type_
                 (others_of_Type_perm (metav1.Type_ condition)
                                      (Conditions (status w)))).
      rewrite <- T, (of_Type_unique c _ U Hin), !map_app. simpl.
      now rewrite T.
Qed.

Lemma setCondition_in_place_witness :
  map metav1.Type_
      (Conditions (status (setCondition
                             (metav1.mkCondition "Configured" "False" 0%Z 0%Z
                                                 "GitError" "clone failed")
                             with_generation)))
  = map metav1.Type_ (Conditions (status with_generation)).
Proof.
  apply (setCondition_in_place
           (metav1.mkCondition "Configured" "False" 0%Z 0%Z
                               "GitError" "clone failed")
           with_generation).
  - repeat constructor.
  - repeat constructor. simpl. tauto.
  - simpl. now left.
Defined.

(** ** The composite marks *)

Lemma setCondition_present_shown
    (t : ConditionType) (s : metav1.ConditionStatus) (reason message : string)
    (w : World) :
  exists c,
    In c (Conditions (status (setCondition
                                (metav1.mkCondition t s 0%Z 0%Z reason message)
                                w)))
    /\ shown c = (t, s, reason, message)
    /\ metav1.ObservedGeneration c = 0%Z.
Proof.
  destruct (setCondition_present
              (metav1.mkCondition t s 0%Z 0%Z reason message) w)
    as (c & Hin & T & S & G & R & M).
  exists c. split; [exact Hin|]. simpl in *. unfold shown.
  now rewrite <- T, <- S, <- R, <- M, <- G.
Qed.

(** X9: [MarkRunning] sets Phase to Running, clears Message and leaves a
    Configured condition True with reason and message "Successful"; no
    phase is final: on a list with at most one condition per Type, calling
    it after [MarkFailed] leaves Configured True again, stamped with the
    clock reading that follows those of [MarkFailed]. *)
Theorem MarkRunning_sets (w : World) :
  Phase (status (MarkRunning w)) = GitSyncPhaseRunning
  /\ Message (status (MarkRunning w)) = ""
  /\ (exists c, In c (Conditions (status (MarkRunning w)))
                /\ shown c = ("Configured", "True", "Successful", "Successful"))
  /\ (unique_Types (Conditions (status w)) ->
      forall reason message,
        Phase (status (MarkRunning (MarkFailed reason message w)))
        = GitSyncPhaseRunning
        /\ of_Type "Configured"
             (Conditions (status (MarkRunning (MarkFailed reason message w))))
           = [metav1.mkCondition "Configured" "True" 0%Z
                (wall w (ticks (MarkFailed reason message w)))
                "Successful" "Successful"]).
Proof.
  repeat split.
  - destruct (setCondition_present_shown "Configured" "True" "Successful"
                "Successful" w) as (c & Hin & Hs & _).
    now exists c.
  - unfold MarkRunning, MarkFailed, MarkConditionTrue, MarkConditionFalse,
           markTypeStatus.
    rewrite setCondition_SetPhase. simpl.
    set (failed := metav1.mkCondition GitSyncConditionConfigured
                     metav1.ConditionFalse 0%Z 0%Z reason message).
    set (w1 := setCondition failed w).
    assert (U1 : unique_Types (Conditions (status w1)))
      by now apply setCondition_unique.
    destruct (setCondition_present failed w) as (c & Hin & Hc). fold w1 in Hin.
    replace (wall w) with (wall w1)
      by apply (setCondition_frame failed w).
    apply (setCondition_of_Type
             (metav1.mkCondition "Configured" "True" 0%Z 0%Z
                                 "Successful" "Successful") w1).
    destruct (existsb _ _) eqn:E; [exfalso|reflexivity].
    apply existsb_exists in E. destruct E as (c' & Hin' & Hc').
    apply same_but_timeb_spec in Hc'.
    destruct Hc as (T & S & _), Hc' as (T' & S' & _). simpl in *.
    assert (c' = c).
    { apply (unique_Types_inj _ U1); auto.
      transitivity "Configured"; [symmetry; exact T' | exact T]. }
    subst c'. unfold failed in S. simpl in S. rewrite <- S in S'.
    discriminate.
Qed.

Lemma MarkRunning_sets_witness :
  of_Type "Configured"
    (Conditions (status (MarkRunning
                           (MarkFailed "GitError" "clone failed"
                                       with_generation))))
  = [metav1.mkCondition "Configured" "True" 0%Z 101%Z
                        "Successful" "Successful"].
Proof.
  refine (proj2 (proj2 (proj2 (proj2 (MarkRunning_sets with_generation))) _
                   "GitError" "clone failed")).
  repeat constructor. simpl. tauto.
Defined.

(** X10: [MarkNotApplicable] sets Phase to NotApplicable and Message to the
    given message, and records the Configured condition exactly as
    [MarkFailed] does: False with the given reason and message.  The two
    calls leave the same list, message and clock, and differ in Phase
    only. *)
Theorem MarkNotApplicable_sets (reason message : string) (w : World) :
  Phase (status (MarkNotApplicable reason message w)) = GitSyncPhaseNA
  /\ Message (status (MarkNotApplicable reason message w)) = message
  /\ (exists c, In c (Conditions (status (MarkNotApplicable reason message w)))
                /\ shown c = ("Configured", "False", reason, message))
  /\ MarkNotApplicable reason message w
     = SetPhase GitSyncPhaseNA message (MarkFailed reason message w)
  /\ Conditions (status (MarkNotApplicable reason message w))
     = Conditions (status (MarkFailed reason message w))
  /\ ticks (MarkNotApplicable reason message w)
     = ticks (MarkFailed reason message w).
Proof.
  repeat split.
  destruct (setCondition_present_shown "Configured" "False" reason message w)
    as (c & Hin & Hs & _).
  now exists c.
Qed.

(** ** InitializeConditions *)

(** X11: after [InitializeConditions], whatever the list was and whatever
    the order and repetitions of the arguments, every Type passed has a
    stored condition with Status Unknown, Reason "Unknown", an empty Message
    and no ObservedGeneration. *)
Theorem InitializeConditions_covers
    (conditionTypes : list ConditionType) (w : World) (t : ConditionType) :
  In t conditionTypes ->
  exists c,
    In c (Conditions (status (InitializeConditions conditionTypes w)))
    /\ shown c = (t, "Unknown", "Unknown", "")
    /\ metav1.ObservedGeneration c = 0%Z.
Proof.
  intros Hin.
  destruct (InitializeConditions_present conditionTypes w t Hin)
    as (c & Hc & T & S & G & R & M).
  exists c. split; [exact Hc|]. simpl in *. unfold shown.
  now rewrite <- T, <- S, <- R, <- M, <- G.
Qed.

Lemma InitializeConditions_covers_witness :
  exists c,
    In c (Conditions (status (InitializeConditions ["Synced"; "Configured"]
                                                   with_duplicate)))
    /\ shown c = ("Configured", "Unknown", "Unknown", "")
    /\ metav1.ObservedGeneration c = 0%Z.
Proof.
  apply (InitializeConditions_covers ["Synced"; "Configured"] with_duplicate
                                     "Configured").
  simpl. auto.
Defined.

Lemma filter_others_absorb (p : metav1.Condition -> bool) (t : string)
    (cs : list metav1.Condition) :
  (forall c, p c = true -> metav1.Type_ c <> t) ->
  filter p (others t cs) = filter p cs.
Proof.
  intros H. unfold others. induction cs as [|c cs IH]; simpl; [reflexivity|].
  destruct (String.eqb_spec (metav1.Type_ c) t) as [E|N]; simpl.
  - destruct (p c) eqn:P; [now apply H in P | exact IH].
  - now rewrite IH.
Qed.

Lemma setCondition_filter_perm (p : metav1.Condition -> bool)
    (condition : metav1.Condition) (w : World) :
  (forall c, p c = true -> metav1.Type_ c <> metav1.Type_ condition) ->
  Permutation (filter p (Conditions (status (setCondition condition w))))
              (filter p (Conditions (status w))).
Proof.
  intros H.
  rewrite <- (filter_others_absorb p (metav1.Type_ condition)
                (Conditions (status (setCondition condition w))) H).
  rewrite <- (filter_others_absorb p (metav1.Type_ condition)
                (Conditions (status w)) H).
  apply Permutation_filter, setCondition_others_perm.
Qed.

(** X12: [InitializeConditions] neither adds, drops nor alters a condition
    whose Type is not among its arguments. *)
Theorem InitializeConditions_others_untouched
    (conditionTypes : list ConditionType) (w : World) :
  Permutation
    (filter (not_among conditionTypes)
            (Conditions (status (InitializeConditions conditionTypes w))))
    (filter (not_among conditionTypes) (Conditions (status w))).
Proof.
  assert (G : forall ts (p : metav1.Condition -> bool) w0,
             (forall c, p c = true -> ~ In (metav1.Type_ c) ts) ->
             Permutation
               (filter p (Conditions (status (InitializeConditions ts w0))))
               (filter p (Conditions (status w0)))).
  { unfold InitializeConditions.
    induction ts as [|t ts IH]; intros p w0 H; simpl; [reflexivity|].
    rewrite IH by (intros c P; specialize (H c P); simpl in H; tauto).
    apply setCondition_filter_perm.
    intros c P. specialize (H c P). simpl in *. intuition congruence. }
  apply G. intros c P Hin. unfold not_among in P.
  apply negb_true_iff in P.
  assert (T : existsb (String.eqb (metav1.Type_ c)) conditionTypes = true).
  { apply existsb_exists. exists (metav1.Type_ c).
    split; [exact Hin | apply String.eqb_refl]. }
  congruence.
Qed.

(** ** Invariants of the statuses built by the methods *)

(** X13: every status built from the empty one by a sequence of calls of
    the methods has its list sorted by Type, with at most one condition per
    Type and no ObservedGeneration recorded. *)
Theorem methods_keep_list_wellformed
    (clock : nat -> Z) (n : nat) (calls : list Call) :
  forallb from_methods calls = true ->
  kept (Conditions (status (run calls (mkWorld clock n fresh)))).
Proof.
  intros M. apply run_kept; [exact M | apply fresh_kept].
Qed.

Lemma methods_keep_list_wellformed_witness :
  kept (Conditions (status
          (run [CallInitializeConditions ["Synced"; "Configured"];
                CallMarkRunning; CallMarkFailed "GitError" "clone failed";
                CallMarkConditionUnknown "Applied" "Waiting" ""]
               (mkWorld sample_clock 0 fresh)))).
Proof.
  apply (methods_keep_list_wellformed sample_clock 0).
  reflexivity.
Defined.

Lemma setCondition_clock (condition : metav1.Condition) (w : World) :
  stamped_by_clock w ->
  stamped_by_clock (setCondition condition w)
  /\ (ticks w <= ticks (setCondition condition w))%nat
  /\ wall (setCondition condition w) = wall w.
Proof.
  intros H.
  destruct (setCondition_cases condition w) as [E|[_ E]]; rewrite E;
    [auto|].
  split; [|simpl; auto].
  unfold stamped_by_clock in *. simpl.
  apply (Permutation_Forall (Permutation_sym (sort_Type_perm _))).
  apply Forall_app. split.
  - rewrite Forall_forall in *. intros c Hc. apply In_others in Hc.
    destruct (H c (proj1 Hc)) as (i & Hi & Ei). exists i. split; [lia|exact Ei].
  - repeat constructor. exists (ticks w). split; [lia|reflexivity].
Qed.

Lemma InitializeConditions_clock (ts : list ConditionType) :
  forall w,
    stamped_by_clock w ->
    stamped_by_clock (InitializeConditions ts w)
    /\ (ticks w <= ticks (InitializeConditions ts w))%nat
    /\ wall (InitializeConditions ts w) = wall w.
Proof.
  unfold InitializeConditions.
  induction ts as [|t ts IH]; intros w H; simpl; [auto|].
  destruct (setCondition_clock (Unknown_condition t) w H) as (H1 & L1 & W1).
  destruct (IH _ H1) as (H2 & L2 & W2).
  unfold Unknown_condition in *.
  split; [exact H2|]. split; [lia | congruence].
Qed.

Lemma SetPhase_clock (phase : GitSyncPhase) (msg : string) (w : World) :
  stamped_by_clock w ->
  stamped_by_clock (SetPhase phase msg w)
  /\ (ticks w <= ticks (SetPhase phase msg w))%nat
  /\ wall (SetPhase phase msg w) = wall w.
Proof. intros H. repeat split; auto. Qed.

Lemma call_clock (c : Call) (w : World) :
  stamped_by_clock w ->
  stamped_by_clock (call c w)
  /\ (ticks w <= ticks (call c w))%nat
  /\ wall (call c w) = wall w.
Proof.
  intros H.
  destruct c; simpl;
    unfold InitConditions, MarkRunning, MarkFailed, MarkNotApplicable,
           MarkConditionTrue, MarkConditionFalse, MarkConditionUnknown,
           markTypeStatus;
    try (apply SetPhase_clock; exact H);
    try (apply InitializeConditions_clock; exact H);
    try (apply setCondition_clock; exact H).
Qed.

Lemma run_clock (calls : list Call) :
  forall w,
    stamped_by_clock w ->
    stamped_by_clock (run calls w)
    /\ (ticks w <= ticks (run calls w))%nat
    /\ wall (run calls w) = wall w.
Proof.
  unfold run.
  induction calls as [|c calls IH]; intros w H; simpl; [auto|].
  destruct (call_clock c w H) as (H1 & L1 & W1).
  destruct (IH _ H1) as (H2 & L2 & W2).
  split; [exact H2|]. split; [lia | congruence].
Qed.

(** X14: the methods never move the clock back nor store a timestamp of
    their own making: when every stored timestamp is a clock reading
    already made, as on an empty list, this is still so after any sequence
    of calls, and under a monotone clock no stored timestamp is later than
    the next reading of the clock. *)
Theorem timestamps_are_clock_readings (calls : list Call) (w : World) :
  stamped_by_clock w ->
  stamped_by_clock (run calls w)
  /\ (ticks w <= ticks (run calls w))%nat
  /\ (monotone (wall w) ->
      forall c, In c (Conditions (status (run calls w))) ->
                (metav1.LastTransitionTime c
                 <= wall w (ticks (run calls w)))%Z).
Proof.
  intros H. destruct (run_clock calls w H) as (H1 & L1 & W1).
  split; [exact H1|]. split; [exact L1|].
  intros Mono c Hc. unfold stamped_by_clock in H1.
  rewrite Forall_forall in H1. destruct (H1 c Hc) as (i & Hi & ->).
  rewrite W1. apply Mono. lia.
Qed.

Lemma timestamps_are_clock_readings_witness :
  stamped_by_clock
    (run [CallInitConditions; CallMarkRunning; CallMarkRunning;
          CallMarkFailed "GitError" "clone failed"]
         (mkWorld sample_clock 3 fresh)).
Proof.
  apply (timestamps_are_clock_readings
           [CallInitConditions; CallMarkRunning; CallMarkRunning;
            CallMarkFailed "GitError" "clone failed"]
           (mkWorld sample_clock 3 fresh)).
  constructor.
Defined.

(** X15: the methods write only phases of the enumeration declared for
    [GitSyncPhase]: from a status whose Phase is one of "", Pending,
    Running, Failed, NotApplicable, every sequence of calls in which
    [SetPhase] is given such a phase ends in such a phase. *)
Theorem methods_keep_phase_listed (calls : list Call) (w : World) :
  listed_phase (Phase (status w)) = true ->
  forallb listed_call calls = true ->
  listed_phase (Phase (status (run calls w))) = true.
Proof.
  unfold run. revert w.
  induction calls as [|c calls IH]; intros w P L; simpl in *; [exact P|].
  apply andb_true_iff in L. destruct L as (Lc & L).
  apply IH; [|exact L].
  destruct c; simpl in *;
    unfold MarkConditionTrue, MarkConditionFalse, MarkConditionUnknown,
           markTypeStatus;
    try reflexivity; try exact Lc;
    try (rewrite (proj1 (setCondition_frame _ w)); exact P).
  rewrite (proj1 (InitializeConditions_frame _ w)). exact P.
Qed.

Lemma methods_keep_phase_listed_witness :
  listed_phase
    (Phase (status (run [CallInitConditions; CallSetPhase "Running" "ok";
                         CallMarkNotApplicable "NoDestination" "not listed"]
                        (mkWorld sample_clock 0 fresh))))
  = true.
Proof.
  apply (methods_keep_phase_listed
           [CallInitConditions; CallSetPhase "Running" "ok";
            CallMarkNotApplicable "NoDestination" "not listed"]
           (mkWorld sample_clock 0 fresh));
    reflexivity.
Defined.

(** ** Phase and conditions are independent *)

(** X16: a phase write and an upsert can be done in either order: the
    resulting world is the same. *)
Theorem SetPhase_setCondition_commute
    (phase : GitSyncPhase) (msg : string) (condition : metav1.Condition)
    (w : World) :
  SetPhase phase msg (setCondition condition w)
  = setCondition condition (SetPhase phase msg w).
Proof. symmetry. apply setCondition_SetPhase. Qed.

(** ** The list up to timestamps *)

Lemma existsb_untimed (condition : metav1.Condition)
    (cs : list metav1.Condition) :
  existsb (same_but_timeb condition) (untimed cs)
  = existsb (same_but_timeb condition) cs.
Proof.
  unfold untimed. induction cs as [|c cs IH]; simpl; [reflexivity|].
  now rewrite IH.
Qed.

Lemma others_untimed (t : string) (cs : list metav1.Condition) :
  others t (untimed cs) = untimed (others t cs).
Proof.
  unfold others, untimed. induction cs as [|c cs IH]; simpl; [reflexivity|].
  destruct (negb (String.eqb (metav1.Type_ c) t)); simpl; now rewrite IH.
Qed.

Section SortSliceMap.
Context {A : Type} (less : A -> A -> bool) (f : A -> A).
Hypothesis less_f : forall a b, less (f a) (f b) = less a b.

Lemma sift_map (x : A) (l : list A) :
  sift less (f x) (map f l) = map f (sift less x l).
Proof.
  induction l as [|y l IH]; simpl; [reflexivity|].
  rewrite less_f. destruct (less x y); simpl; [now rewrite IH | reflexivity].
Qed.

Lemma fold_sift_map (data : list A) :
  forall acc,
    fold_left (fun p x => sift less x p) (map f data) (map f acc)
    = map f (fold_left (fun p x => sift less x p) data acc).
Proof.
  induction data as [|x data IH]; intros acc; simpl; [reflexivity|].
  now rewrite sift_map, IH.
Qed.

Lemma sort_Slice_map (data : list A) :
  sort_Slice less (map f data) = map f (sort_Slice less data).
Proof.
  unfold sort_Slice. rewrite map_rev. f_equal.
  apply (fold_sift_map data []).
Qed.
End SortSliceMap.

Lemma sort_untimed (cs : list metav1.Condition) :
  sort_Slice less_Type (untimed cs) = untimed (sort_Slice less_Type cs).
Proof. apply sort_Slice_map. reflexivity. Qed.

Lemma setCondition_untimed (condition : metav1.Condition) (w : World) :
  untimed (Conditions (status (setCondition condition w)))
  = upsert_untimed condition (untimed (Conditions (status w))).
Proof.
  rewrite setCondition_upsert. unfold upsert, upsert_untimed.
  rewrite existsb_untimed.
  destruct (existsb _ (Conditions (status w))); [reflexivity|].
  simpl. rewrite <- sort_untimed, others_untimed.
  unfold untimed. now rewrite map_app.
Qed.

Lemma InitializeConditions_untimed (ts : list ConditionType) :
  forall w1 w2,
    untimed (Conditions (status w1)) = untimed (Conditions (status w2)) ->
    untimed (Conditions (status (InitializeConditions ts w1)))
    = untimed (Conditions (status (InitializeConditions ts w2))).
Proof.
  unfold InitializeConditions.
  induction ts as [|t ts IH]; intros w1 w2 E; simpl; [exact E|].
  apply IH. now rewrite !setCondition_untimed, E.
Qed.




(** ** Upserts of different Types *)

Lemma setCondition_In_other (condition c : metav1.Condition) (w : World) :
  In c (Conditions (status (setCondition condition w))) ->
  metav1.Type_ c <> metav1.Type_ condition ->
  In c (Conditions (status w)).
Proof.
  intros Hin N.
  assert (H : In c (others (metav1.Type_ condition) (Conditions (status w)))).
  { apply (Permutation_in _ (setCondition_others_perm condition w)).
    now apply In_others. }
  now apply In_others in H.
Qed.

Lemma setCondition_In_cases (condition c : metav1.Condition) (w : World) :
  unique_Types (Conditions (status w)) ->
  In c (Conditions (status (setCondition condition w))) ->
  same_but_time condition c
  \/ (metav1.Type_ c <> metav1.Type_ condition /\ In c (Conditions (status w))).
Proof.
  intros U Hin.
  destruct (String.eqb_spec (metav1.Type_ c) (metav1.Type_ condition))
    as [E|N].
  - left. destruct (setCondition_lookup condition w U) as (c' & L & Hc').
    assert (H : In c (of_Type (metav1.Type_ condition)
                        (Conditions (status (setCondition condition w))))).
    { apply filter_In. split; [exact Hin | now apply String.eqb_eq]. }
    rewrite L in H. destruct H as [<-|[]]. exact Hc'.
  - right. split; [exact N|]. now apply (setCondition_In_other condition).
Qed.

Lemma setCondition_Types (condition : metav1.Condition) (w : World)
    (t : string) :
  In t (map metav1.Type_ (Conditions (status (setCondition condition w))))
  <-> t = metav1.Type_ condition
      \/ In t (map metav1.Type_ (Conditions (status w))).
Proof.
  rewrite !in_map_iff. split.
  - intros (c & <- & Hin).
    destruct (String.eqb_spec (metav1.Type_ c) (metav1.Type_ condition))
      as [E|N]; [now left|].
    right. exists c. split; [reflexivity|].
    now apply (setCondition_In_other condition).
  - intros [->|(c & <- & Hin)].
    + destruct (setCondition_present condition w) as (c & Hin & T & _).
      exists c. now split.
    + destruct (String.eqb_spec (metav1.Type_ c) (metav1.Type_ condition))
        as [E|N].
      * destruct (setCondition_present condition w) as (c' & Hin' & T & _).
        exists c'. split; [congruence | exact Hin'].
      * exists c. split; [reflexivity | now apply setCondition_keeps].
Qed.

Lemma noop_kept (a b : metav1.Condition) (w : World) :
  metav1.Type_ a <> metav1.Type_ b ->
  setCondition b w = w ->
  setCondition b (setCondition a w) = setCondition a w.
Proof.
  intros N E. apply upsert_noop.
  destruct (setCondition_present b w) as (c & Hin & Hc). rewrite E in Hin.
  exists c. split; [|exact Hc].
  apply setCondition_keeps; [exact Hin|].
  destruct Hc as (T & _). congruence.
Qed.

Lemma same_but_time_untimed (x c1 c2 : metav1.Condition) :
  same_but_time x c1 -> same_but_time x c2 ->
  set_LastTransitionTime 0%Z c1 = set_LastTransitionTime 0%Z c2.
Proof.
  intros (T1 & S1 & G1 & R1 & M1) (T2 & S2 & G2 & R2 & M2).
  unfold set_LastTransitionTime. congruence.
Qed.

Lemma untimed_pointwise (l1 : list metav1.Condition) :
  forall l2,
    map metav1.Type_ l1 = map metav1.Type_ l2 ->
    (forall c1 c2, In c1 l1 -> In c2 l2 ->
                   metav1.Type_ c1 = metav1.Type_ c2 ->
                   set_LastTransitionTime 0%Z c1
                   = set_LastTransitionTime 0%Z c2) ->
    untimed l1 = untimed l2.
Proof.
  induction l1 as [|a l1 IH]; intros [|b l2] M H; simpl in *;
    try discriminate; [reflexivity|].
  injection M as T M. f_equal; [apply H; auto|].
  apply IH; [exact M|]. intros c1 c2 H1 H2. apply H; auto.
Qed.

Lemma two_upserts_In (a b c : metav1.Condition) (w : World) :
  unique_Types (Conditions (status w)) ->
  In c (Conditions (status (setCondition b (setCondition a w)))) ->
  same_but_time a c \/ same_but_time b c
  \/ (In c (Conditions (status w))
      /\ metav1.Type_ c <> metav1.Type_ a /\ metav1.Type_ c <> metav1.Type_ b).
Proof.
  intros U Hin.
  destruct (setCondition_In_cases b c (setCondition a w)
              (setCondition_unique a w U) Hin) as [Hb|(Nb & Hin')];
    [now right; left|].
  destruct (setCondition_In_cases a c w U Hin') as [Ha|(Na & Hin'')];
    [now left|].
  right. right. auto.
Qed.

Lemma setCondition_commute_untimed (a b : metav1.Condition) (w : World) :
  unique_Types (Conditions (status w)) ->
  metav1.Type_ a <> metav1.Type_ b ->
  untimed (Conditions (status (setCondition b (setCondition a w))))
  = untimed (Conditions (status (setCondition a (setCondition b w)))).
Proof.
  intros U N.
  destruct (setCondition_cases a w) as [Ea|[Xa Ea]].
  { rewrite (noop_kept b a w (not_eq_sym N) Ea). now rewrite Ea. }
  destruct (setCondition_cases b w) as [Eb|[Xb Eb]].
  { rewrite (noop_kept a b w N Eb). now rewrite Eb. }
  clear Ea Eb.
  assert (Sab : sorted_by_Type
                  (Conditions (status (setCondition b (setCondition a w))))).
  { destruct (setCondition_cases b (setCondition a w)) as [E|[_ E]].
    - exfalso. destruct (setCondition_present b (setCondition a w))
        as (c & Hin & Hc).
      rewrite E in Hin. pose proof Hc as (T & _).
      apply (setCondition_In_other a) in Hin; [|congruence].
      assert (F : existsb (same_but_timeb b) (Conditions (status w)) = true).
      { apply existsb_exists. exists c. now rewrite same_but_timeb_spec. }
      congruence.
    - rewrite E. simpl. apply sort_Type_sorted. }
  assert (Sba : sorted_by_Type
                  (Conditions (status (setCondition a (setCondition b w))))).
  { destruct (setCondition_cases a (setCondition b w)) as [E|[_ E]].
    - exfalso. destruct (setCondition_present a (setCondition b w))
        as (c & Hin & Hc).
      rewrite E in Hin. pose proof Hc as (T & _).
      apply (setCondition_In_other b) in Hin; [|congruence].
      assert (F : existsb (same_but_timeb a) (Conditions (status w)) = true).
      { apply existsb_exists. exists c. now rewrite same_but_timeb_spec. }
      congruence.
    - rewrite E. simpl. apply sort_Type_sorted. }
  apply untimed_pointwise.
  - apply sorted_strings_perm_eq; auto using sorted_by_Type_map.
    apply NoDup_Permutation.
    + apply setCondition_unique. now apply setCondition_unique.
    + apply setCondition_unique. now apply setCondition_unique.
    + intros t. rewrite !setCondition_Types. tauto.
  - intros c1 c2 H1 H2 T.
    destruct (two_upserts_In a b c1 w U H1)
      as [A1|[B1|(I1 & Na1 & Nb1)]];
      destruct (two_upserts_In b a c2 w U H2)
        as [B2|[A2|(I2 & Nb2 & Na2)]];
      try (now apply (same_but_time_untimed a));
      try (now apply (same_but_time_untimed b));
      try (exfalso;
           repeat match goal with
                  | H : same_but_time _ _ |- _ => destruct H as (? & _)
                  end; congruence).
    f_equal. now apply (unique_Types_inj _ U).
Qed.

(** X18: on a list with at most one condition per Type, upserts of two
    different Types can be made in either order: the resulting lists hold
    the same conditions in the same order and differ at most in
    timestamps. *)
Theorem setCondition_order_irrelevant (a b : metav1.Condition) (w : World) :
  unique_Types (Conditions (status w)) ->
  metav1.Type_ a <> metav1.Type_ b ->
  untimed (Conditions (status (setCondition b (setCondition a w))))
  = untimed (Conditions (status (setCondition a (setCondition b w)))).
Proof. apply setCondition_commute_untimed. Qed.

Lemma setCondition_order_irrelevant_witness :
  untimed
    (Conditions (status
       (setCondition (Unknown_condition "Synced")
          (setCondition
             (metav1.mkCondition "Configured" "False" 0%Z 0%Z "GitError" "x")
             with_generation))))
  = untimed
      (Conditions (status
         (setCondition
            (metav1.mkCondition "Configured" "False" 0%Z 0%Z "GitError" "x")
            (setCondition (Unknown_condition "Synced") with_generation)))).
Proof.
  apply (setCondition_order_irrelevant
           (metav1.mkCondition "Configured" "False" 0%Z 0%Z "GitError" "x")
           (Unknown_condition "Synced") with_generation).
  - repeat constructor. simpl. tauto.
  - simpl. discriminate.
Defined.

Lemma InitializeConditions_perm_untimed (ts ts' : list ConditionType) :
  Permutation ts ts' ->
  forall w,
    unique_Types (Conditions (status w)) ->
    untimed (Conditions (status (InitializeConditions ts w)))
    = untimed (Conditions (status (InitializeConditions ts' w))).
Proof.
  induction 1 as [|x l l' _ IH|x y l|l l' l'' _ IH1 _ IH2]; intros w U.
  - reflexivity.
  - apply (IH (setCondition (Unknown_condition x) w)).
    now apply setCondition_unique.
  - change (untimed (Conditions (status
              (InitializeConditions l
                 (setCondition (Unknown_condition x)
                    (setCondition (Unknown_condition y) w)))))
            = untimed (Conditions (status
              (InitializeConditions l
                 (setCondition (Unknown_condition y)
                    (setCondition (Unknown_condition x) w)))))).
    apply InitializeConditions_untimed.
    destruct (String.eqb_spec y x) as [->|N]; [reflexivity|].
    now apply setCondition_commute_untimed.
  - now rewrite IH1, IH2.
Qed.

(** X19: on a list with at most one condition per Type, the result of
    [InitializeConditions] does not depend on the order of its arguments:
    for two argument lists that are permutations of each other the
    resulting lists hold the same conditions in the same order and differ
    at most in timestamps. *)
Theorem InitializeConditions_any_order
    (ts ts' : list ConditionType) (w : World) :
  Permutation ts ts' ->
  unique_Types (Conditions (status w)) ->
  untimed (Conditions (status (InitializeConditions ts w)))
  = untimed (Conditions (status (InitializeConditions ts' w))).
Proof.
  intros P U. now apply InitializeConditions_perm_untimed.
Qed.

Lemma InitializeConditions_any_order_witness :
  untimed (Conditions (status (InitializeConditions ["C"; "A"; "B"]
                                                    with_generation)))
  = untimed (Conditions (status (InitializeConditions ["A"; "B"; "C"]
                                                      with_generation))).
Proof.
  apply (InitializeConditions_any_order ["C"; "A"; "B"] ["A"; "B"; "C"]
                                        with_generation).
  - apply (Permutation_cons_append ["A"; "B"] "C").
  - repeat constructor. simpl. tauto.
Defined.

(** ** The caller's timestamp *)

(** X20: the LastTransitionTime of the condition handed to [setCondition]
    is never used: the call behaves the same whatever it is, and what is
    stored carries either the timestamp already stored or the clock
    reading. *)
Theorem setCondition_ignores_given_time
    (t : metav1.Time) (condition : metav1.Condition) (w : World) :
  setCondition (set_LastTransitionTime t condition) w
  = setCondition condition w.
Proof.
  rewrite !setCondition_upsert. unfold upsert.
  change (same_but_timeb (set_LastTransitionTime t condition))
    with (same_but_timeb condition).
  reflexivity.
Qed.
